(** * api/generate.js: the /api/generate relay, embedded and verified

    The file embeds the two functions of [src/api/generate.js]:

    - [fetchWithRetry], the retry loop around [fetch] with exponential
      backoff and jitter;
    - [handler], the serverless entry point that validates the request,
      calls the upstream model through [fetchWithRetry] and shapes the
      answer.

    JavaScript values are a small inductive type, numbers are IEEE-754
    binary64 ([float], the kernel's primitive floats), exceptions and the
    observable effects (calls of [fetch], timers, console lines, the manual
    [JSON.parse]) are threaded by a small monad that carries the number of
    [fetch] calls and [Math.random] draws made so far and emits a trace. *)

From Stdlib Require Import ZArith List String Ascii Bool Lia Floats.
From Stdlib Require Import DecimalString.
Import ListNotations.

Local Open Scope string_scope.
Local Open Scope Z_scope.
Local Open Scope list_scope.
Local Set Warnings "-register-all".

(** ** JavaScript values *)

Inductive JsVal : Type :=
| JUndefined
| JNull
| JBool (b : bool)
| JNum (x : float)
| JStr (s : string)
| JArr (items : list JsVal)
| JObj (fields : list (string * JsVal)).

(** Errors are the three classes this program can meet: [new Error(...)]
    thrown by the code itself, and the [TypeError]s and [SyntaxError]s the
    runtime raises. [message] is the [.message] property. *)
Inductive JsError : Type :=
| Error (msg : string)
| TypeError (msg : string)
| SyntaxError (msg : string).

Definition message (e : JsError) : string :=
  match e with
  | Error m | TypeError m | SyntaxError m => m
  end.

(** The situations in which the runtime raises on the program's behalf. The
    wording of the message is the engine's, see [engine_message] below. *)
Inductive HostFault : Type :=
| DestructureNullish (v : JsVal)
| ReadOfNullish (v : JsVal) (prop : string)
| NotAFunction (prop : string)
| JsonSyntax (input : string).

Definition nullish (v : JsVal) : bool :=
  match v with
  | JUndefined | JNull => true
  | _ => false
  end.

Definition is_nan (x : float) : bool := negb (PrimFloat.eqb x x).

(** [ToBoolean]: the falsy values are [undefined], [null], [false], [+0],
    [-0], [NaN] and the empty string. *)
Definition truthy (v : JsVal) : bool :=
  match v with
  | JUndefined | JNull => false
  | JBool b => b
  | JNum x => negb (PrimFloat.eqb x 0%float || is_nan x)
  | JStr s => negb (String.eqb s "")
  | JArr _ | JObj _ => true
  end.

Fixpoint lookup (k : string) (fields : list (string * JsVal)) : JsVal :=
  match fields with
  | [] => JUndefined
  | (k', v) :: rest => if String.eqb k k' then v else lookup k rest
  end.

(** Strict equality with a string literal, [v === "..."]. *)
Definition strict_eq_str (v : JsVal) (lit : string) : bool :=
  match v with
  | JStr s => String.eqb s lit
  | _ => false
  end.

(** Decimal rendering of an integer inside a template literal. *)
Definition show (n : Z) : string := NilZero.string_of_int (Z.to_int n).

(** ** The world outside the function *)

(** A [Response] as the code uses it: [status], and the body that
    [response.text()] / [response.json()] read, which may itself fail. *)
Inductive Completion (A : Type) : Type :=
| Normal (a : A)
| Abrupt (e : JsError).
Arguments Normal {A} a.
Arguments Abrupt {A} e.

Record Response : Type := mkResponse {
  status : Z;
  text : Completion string
}.

(** [response.ok]: the status is in the range 200-299. *)
Definition ok (r : Response) : bool :=
  (200 <=? status r) && (status r <=? 299).

Inductive FetchOutcome : Type :=
| Resolves (r : Response)
| Rejects (e : JsError).

Record FetchOptions : Type := mkOptions {
  opt_method : string;
  opt_headers : list (string * string);
  opt_body : string
}.

Inductive LogArg : Type :=
| LStr (s : string)
| LErr (e : JsError).

Inductive Event : Type :=
| EvFetch (url : string) (options : FetchOptions)
| EvSleep (delay : float)
| EvConsoleError (args : list LogArg)
| EvConsoleWarn (args : list LogArg)
| EvJsonParse (input : string).

(** How many [fetch] calls and [Math.random] draws have been made. *)
Record Clock : Type := mkClock {
  fetched : nat;
  drawn : nat
}.

Definition clock0 : Clock := mkClock 0 0.

(** ** The monad: state, exceptions and a trace *)

Definition M (A : Type) : Type := Clock -> Completion A * Clock * list Event.

Definition ret {A} (a : A) : M A := fun c => (Normal a, c, []).

Definition throw {A} (e : JsError) : M A := fun c => (Abrupt e, c, []).

Definition bind {A B} (m : M A) (k : A -> M B) : M B :=
  fun c =>
    match m c with
    | (Normal a, c1, t1) =>
        let '(r, c2, t2) := k a c1 in (r, c2, t1 ++ t2)
    | (Abrupt e, c1, t1) => (Abrupt e, c1, t1)
    end.

(** [try { m } catch (e) { h e }] *)
Definition try_catch {A} (m : M A) (h : JsError -> M A) : M A :=
  fun c =>
    match m c with
    | (Normal a, c1, t1) => (Normal a, c1, t1)
    | (Abrupt e, c1, t1) =>
        let '(r, c2, t2) := h e c1 in (r, c2, t1 ++ t2)
    end.

Definition emit (ev : Event) : M unit := fun c => (Normal tt, c, [ev]).

Definition lift {A} (r : Completion A) : M A := fun c => (r, c, []).

Declare Scope js_scope.
Delimit Scope js_scope with js.
Notation "x <- m ;; k" := (bind m (fun x => k))
  (at level 61, m at next level, right associativity) : js_scope.
Notation "m ;; k" := (bind m (fun _ => k))
  (at level 61, right associativity) : js_scope.
Local Open Scope js_scope.

Definition result_of {A} (x : Completion A * Clock * list Event) : Completion A :=
  fst (fst x).
Definition clock_of {A} (x : Completion A * Clock * list Event) : Clock :=
  snd (fst x).
Definition trace_of {A} (x : Completion A * Clock * list Event) : list Event :=
  snd x.

(** The [fetch] calls found in a trace. *)
Definition is_fetch (ev : Event) : bool :=
  match ev with EvFetch _ _ => true | _ => false end.

Definition fetch_count (t : list Event) : nat :=
  List.length (List.filter is_fetch t).

Definition is_parse (ev : Event) : bool :=
  match ev with EvJsonParse _ => true | _ => false end.

(** The timer that ran immediately before the [n]-th [fetch] call of a
    trace (calls are numbered from 0), if there was one. [pending] is the
    last timer seen since the previous call. *)
Fixpoint delay_before (n : nat) (pending : option float) (t : list Event)
  : option float :=
  match t with
  | [] => None
  | EvFetch _ _ :: rest =>
      match n with
      | O => pending
      | S n' => delay_before n' None rest
      end
  | EvSleep d :: rest => delay_before n (Some d) rest
  | _ :: rest => delay_before n pending rest
  end.

(** ** The program *)

Section Generate.

(** *** The platform

    What the runtime and the network supply: the text of the messages of
    the errors the engine raises, [JSON.parse] (with [None] for a thrown
    [SyntaxError]), [JSON.stringify], the string conversion of a template
    literal (which raises on a value that has no primitive form, such as
    an object whose own [toString] is not a function), the outcome of the
    [k]-th [fetch] call and the [k]-th [Math.random] draw. *)

Variable engine_message : HostFault -> string.
Variable JSON_parse : string -> option JsVal.
Variable JSON_stringify : JsVal -> option Z -> string.
Variable ToString : JsVal -> Completion string.
Variable upstream : nat -> FetchOutcome.
Variable random : nat -> float.

(** [process.env.GEMINI_API_KEY], absent when [None]. *)
Variable GEMINI_API_KEY : option string.

(** [process.env.GEMINI_API_KEY || ""] *)
Definition API_KEY : string :=
  match GEMINI_API_KEY with
  | Some k => if truthy (JStr k) then k else ""
  | None => ""
  end.

Definition API_URL_BASE : string :=
  "https://generativelanguage.googleapis.com/v1beta/models".

(** [v.prop] for the property names this program reads ([promptText],
    [image], [model], [data], [mimeType], [candidates], [content], [parts],
    [inlineData], [safetyRatings], [probability]): none of them lives on a
    prototype, so only objects can answer, and reading from [undefined] or
    [null] raises. *)
Definition get (v : JsVal) (prop : string) : M JsVal :=
  match v with
  | JUndefined | JNull =>
      throw (TypeError (engine_message (ReadOfNullish v prop)))
  | JObj fields => ret (lookup prop fields)
  | _ => ret JUndefined
  end.

(** [v?.prop] *)
Definition opt_get (v : JsVal) (prop : string) : M JsVal :=
  if nullish v then ret JUndefined else get v prop.

(** [v?.[0]] *)
Definition opt_first (v : JsVal) : JsVal :=
  match v with
  | JArr (x :: _) => x
  | JObj fields => lookup "0" fields
  | JStr (String c _) => JStr (String c EmptyString)
  | _ => JUndefined
  end.

(** [Array.prototype.find] with the callback [p => p.inlineData]. *)
Fixpoint find_inlineData (items : list JsVal) : M JsVal :=
  match items with
  | [] => ret JUndefined
  | p :: rest =>
      i <- get p "inlineData" ;;
      if truthy i then ret p else find_inlineData rest
  end.

(** [parts?.find(p => p.inlineData)]: only arrays have a [find] method. *)
Definition opt_find_inlineData (parts : JsVal) : M JsVal :=
  match parts with
  | JUndefined | JNull => ret JUndefined
  | JArr items => find_inlineData items
  | _ => throw (TypeError (engine_message (NotAFunction "find")))
  end.

(** [const { promptText, image, model } = v] *)
Definition destructure (v : JsVal) : M (JsVal * JsVal * JsVal) :=
  match v with
  | JUndefined | JNull =>
      throw (TypeError (engine_message (DestructureNullish v)))
  | JObj fields =>
      ret (lookup "promptText" fields, lookup "image" fields,
           lookup "model" fields)
  | _ => ret (JUndefined, JUndefined, JUndefined)
  end.

(** [${v}] inside a template literal: a string stands for itself, any
    other value goes through the engine's conversion, which may raise. *)
Definition interpolate (v : JsVal) : M string :=
  match v with
  | JStr s => ret s
  | _ => lift (ToString v)
  end.

(** [await fetch(url, options)] *)
Definition fetch (url : string) (options : FetchOptions) : M Response :=
  fun c =>
    (match upstream (fetched c) with
     | Resolves r => Normal r
     | Rejects e => Abrupt e
     end,
     mkClock (S (fetched c)) (drawn c),
     [EvFetch url options]).

(** [Math.random()] *)
Definition Math_random : M float :=
  fun c => (Normal (random (drawn c)), mkClock (fetched c) (S (drawn c)), []).

(** [await new Promise(resolve => setTimeout(resolve, delay))] *)
Definition sleep (delay : float) : M unit := emit (EvSleep delay).

Definition console_error (args : list LogArg) : M unit :=
  emit (EvConsoleError args).

Definition console_warn (args : list LogArg) : M unit :=
  emit (EvConsoleWarn args).

(** [await response.text()] *)
Definition response_text (r : Response) : M string := lift (text r).

(** [await response.json()] *)
Definition response_json (r : Response) : M JsVal :=
  s <- response_text r ;;
  match JSON_parse s with
  | Some v => ret v
  | None => throw (SyntaxError (engine_message (JsonSyntax s)))
  end.

(** *** fetchWithRetry *)

(** [Math.pow(2, attempt) * 1000 + (Math.random() * 1000)], for the draw
    [r] of [Math.random()]. *)
Definition backoff_delay (attempt : Z) (r : float) : float :=
  (Z.ldexp 1 attempt * 1000 + r * 1000)%float.

(** The body of the [try] block of one iteration. *)
Definition try_fetch (url : string) (options : FetchOptions) : M Response :=
  response <- fetch url options ;;
  if negb (ok response) then
    if (status response =? 429) || (status response >=? 500) then
      throw (Error ("Retriable HTTP error! status: "
                    ++ show (status response))%string)
    else
      errorBody <- response_text response ;;
      throw (Error ("API Request failed with status "
                    ++ show (status response) ++ ": " ++ errorBody)%string)
  else ret response.

(** The [for] loop from iteration [attempt] on; [remaining] counts the
    iterations left, [maxRetries - attempt]. Falling out of the loop
    returns [undefined], here [None]. *)
Fixpoint retry_loop (url : string) (options : FetchOptions) (maxRetries : Z)
    (remaining : nat) (attempt : Z) : M (option Response) :=
  match remaining with
  | O => ret None
  | S remaining' =>
      try_catch
        (response <- try_fetch url options ;; ret (Some response))
        (fun error =>
           console_error
             [LStr ("Attempt " ++ show (attempt + 1) ++ " failed: "
                    ++ message error)%string] ;;
           if attempt =? maxRetries - 1 then throw error
           else
             r <- Math_random ;;
             sleep (backoff_delay attempt r) ;;
             retry_loop url options maxRetries remaining' (attempt + 1))
  end.

Definition fetchWithRetry (url : string) (options : FetchOptions)
    (maxRetries : Z) : M (option Response) :=
  retry_loop url options maxRetries (Z.to_nat maxRetries) 0.

(** *** handler *)

(** [JSON.parse(text)], as called by the handler on a string body. *)
Definition JSON_parse_call (input : string) : M JsVal :=
  emit (EvJsonParse input) ;;
  match JSON_parse input with
  | Some v => ret v
  | None => throw (SyntaxError (engine_message (JsonSyntax input)))
  end.

(** Lines 64-76: the body as received, re-parsed by hand when it is a
    string of positive length; a failed parse leaves [{}]. *)
Definition parse_body (req_body : JsVal) : M JsVal :=
  match req_body with
  | JStr s =>
      if Nat.ltb 0 (String.length s) then
        try_catch
          (JSON_parse_call s)
          (fun parseError =>
             console_warn
               [LStr "手動解析請求主體失敗，可能是無效的 JSON 格式:";
                LStr (message parseError)] ;;
             ret (JObj []))
      else ret req_body
  | _ => ret req_body
  end.

(** [!promptText || !image || !image.data || !image.mimeType || !model] *)
Definition missing_fields (promptText image model : JsVal) : M bool :=
  if negb (truthy promptText) then ret true
  else if negb (truthy image) then ret true
  else
    data <- get image "data" ;;
    if negb (truthy data) then ret true
    else
      mimeType <- get image "mimeType" ;;
      if negb (truthy mimeType) then ret true
      else ret (negb (truthy model)).

Definition build_payload (promptText mimeType data : JsVal) : JsVal :=
  JObj
    [("contents",
      JArr
        [JObj
           [("role", JStr "user");
            ("parts",
             JArr
               [JObj [("text", promptText)];
                JObj
                  [("inlineData",
                    JObj [("mimeType", mimeType); ("data", data)])]])]]);
     ("generationConfig",
      JObj [("responseModalities", JArr [JStr "TEXT"; JStr "IMAGE"])])].

(** [result?.candidates?.[0]?.content?.parts?.find(p => p.inlineData)
      ?.inlineData?.data] *)
Definition extract_base64 (result : JsVal) : M JsVal :=
  candidates <- opt_get result "candidates" ;;
  content <- opt_get (opt_first candidates) "content" ;;
  parts <- opt_get content "parts" ;;
  part <- opt_find_inlineData parts ;;
  inlineData <- opt_get part "inlineData" ;;
  opt_get inlineData "data".

(** [result.candidates?.[0]?.safetyRatings?.[0]?.probability === "HIGH"] *)
Definition high_probability (result : JsVal) : M bool :=
  candidates <- get result "candidates" ;;
  safetyRatings <- opt_get (opt_first candidates) "safetyRatings" ;;
  probability <- opt_get (opt_first safetyRatings) "probability" ;;
  ret (strict_eq_str probability "HIGH").

Record Request : Type := mkRequest {
  method : string;
  body : JsVal
}.

(** What [res.status(code).json(payload)] sends. *)
Record HttpResponse : Type := mkHttp {
  code : Z;
  payload : JsVal
}.

Definition error_body (msg : string) : JsVal := JObj [("error", JStr msg)].

Definition msg_no_key : string := "伺服器配置錯誤：GEMINI_API_KEY 未設定。".
Definition msg_post_only : string := "僅支援 POST 請求。".
Definition msg_missing : string :=
  "缺少必要的請求參數 (promptText, image.data, image.mimeType, 或 model)。".
Definition msg_blocked : string :=
  "內容可能因安全政策而被阻擋，請嘗試修改情境。".
Definition msg_failed : string := "AI 生成圖片失敗，請檢查情境或重試。".
Definition msg_internal (e : JsError) : string :=
  ("伺服器內部錯誤: " ++ message e)%string.

(** Lines 116-135: the reply is read and shaped into the answer. *)
Definition deliver (response : option Response) : M HttpResponse :=
  result <-
    match response with
    | Some r => response_json r
    | None =>
        throw (TypeError (engine_message (ReadOfNullish JUndefined "json")))
    end ;;
  base64Data <- extract_base64 result ;;
  if truthy base64Data then
    ret (mkHttp 200 (JObj [("base64Data", base64Data)]))
  else
    console_error
      [LStr "Gemini API response structure error or blocked content:";
       LStr (JSON_stringify result (Some 2))] ;;
    high <- high_probability result ;;
    let message := if high then msg_blocked else msg_failed in
    ret (mkHttp 500 (JObj [("error", JStr message); ("details", result)])).

(** Line 86: [`${API_URL_BASE}/${modelName}:generateContent?key=${API_KEY}`];
    the two constants are strings, the model name is whatever the body
    carries. *)
Definition api_url (modelName : JsVal) : M string :=
  name <- interpolate modelName ;;
  ret (API_URL_BASE ++ "/" ++ name
         ++ ":generateContent?key=" ++ API_KEY)%string.

Definition api_options (payload : JsVal) : FetchOptions :=
  mkOptions "POST" [("Content-Type", "application/json")]
    (JSON_stringify payload None).

(** Lines 64-135, the body of the outer [try]. *)
Definition handle_post (req : Request) : M HttpResponse :=
  requestBody <- parse_body (body req) ;;
  fields <- destructure requestBody ;;
  let '(promptText, image, model) := fields in
  missing <- missing_fields promptText image model ;;
  if missing then ret (mkHttp 400 (error_body msg_missing))
  else
    let modelName := model in
    apiUrl <- api_url modelName ;;
    mimeType <- get image "mimeType" ;;
    data <- get image "data" ;;
    let payload := build_payload promptText mimeType data in
    response <- fetchWithRetry apiUrl (api_options payload) 5 ;;
    deliver response.

Definition handler (req : Request) : M HttpResponse :=
  if negb (truthy (JStr API_KEY)) then
    ret (mkHttp 500 (error_body msg_no_key))
  else if negb (String.eqb (method req) "POST") then
    ret (mkHttp 405 (error_body msg_post_only))
  else
    try_catch
      (handle_post req)
      (fun e =>
         console_error [LStr "處理 API 請求時發生錯誤:"; LErr e] ;;
         ret (mkHttp 500 (error_body (msg_internal e)))).

(** *** Vocabulary of the specification *)

(** What one iteration's [try] block does with the outcome of its [fetch]:
    the response it returns, or the error it throws. *)
Definition attempt_result (o : FetchOutcome) : Completion Response :=
  match o with
  | Rejects e => Abrupt e
  | Resolves r =>
      if ok r then Normal r
      else if (status r =? 429) || (status r >=? 500) then
        Abrupt (Error ("Retriable HTTP error! status: "
                       ++ show (status r))%string)
      else
        match text r with
        | Normal errorBody =>
            Abrupt (Error ("API Request failed with status "
                           ++ show (status r) ++ ": " ++ errorBody)%string)
        | Abrupt e => Abrupt e
        end
  end.

Definition attempt_fails (o : FetchOutcome) : Prop :=
  exists e, attempt_result o = Abrupt e.

(** A retriable outcome: HTTP 429, HTTP 5xx, or a transport-level error. *)
Definition retriable (o : FetchOutcome) : Prop :=
  match o with
  | Rejects _ => True
  | Resolves r => status r = 429 \/ 500 <= status r <= 599
  end.

(** The error a retriable outcome is observed as. *)
Definition observed_error (o : FetchOutcome) : JsError :=
  match o with
  | Rejects e => e
  | Resolves r =>
      Error ("Retriable HTTP error! status: " ++ show (status r))%string
  end.

(** A fatal outcome: a response whose status is outside 200-299 and is
    neither 429 nor 500 and above. *)
Definition fatal (o : FetchOutcome) : Prop :=
  match o with
  | Rejects _ => False
  | Resolves r => ok r = false /\ status r <> 429 /\ status r < 500
  end.

(** The console line of a failed iteration. *)
Definition attempt_log (attempt : Z) (error : JsError) : Event :=
  EvConsoleError
    [LStr ("Attempt " ++ show (attempt + 1) ++ " failed: "
           ++ message error)%string].

(** The value lines 64-76 leave in [requestBody]. *)
Definition body_value (req_body : JsVal) : JsVal :=
  match req_body with
  | JStr s =>
      if Nat.ltb 0 (String.length s) then
        match JSON_parse s with
        | Some v => v
        | None => JObj []
        end
      else req_body
  | _ => req_body
  end.

(** All four required fields are present and truthy. *)
Definition complete (requestBody : JsVal) : bool :=
  match requestBody with
  | JObj fields =>
      truthy (lookup "promptText" fields)
      && match lookup "image" fields with
         | JObj image =>
             truthy (lookup "data" image) && truthy (lookup "mimeType" image)
         | _ => false
         end
      && truthy (lookup "model" fields)
  | _ => false
  end.

(** The own property [prop] of a value, [undefined] where there is none. *)
Definition field_of (v : JsVal) (prop : string) : JsVal :=
  match v with
  | JObj fields => lookup prop fields
  | _ => JUndefined
  end.

(** The text the [model] of a decoded body takes in the URL, or the error
    its conversion to a string raises. *)
Definition model_name (requestBody : JsVal) : Completion string :=
  match field_of requestBody "model" with
  | JStr s => Normal s
  | v => ToString v
  end.

(** The ordered parts of the first candidate of a parsed reply. *)
Definition first_candidate_parts (result : JsVal) : JsVal :=
  match result with
  | JObj fields =>
      match opt_first (lookup "candidates" fields) with
      | JObj candidate =>
          match lookup "content" candidate with
          | JObj content => lookup "parts" content
          | _ => JUndefined
          end
      | _ => JUndefined
      end
  | _ => JUndefined
  end.

(** A part carries inline data when its [inlineData] is truthy. *)
Definition carries_inlineData (part : JsVal) : bool :=
  match part with
  | JObj fields => truthy (lookup "inlineData" fields)
  | _ => false
  end.

(** The [data] of a part's [inlineData]. *)
Definition inline_data_of (part : JsVal) : JsVal :=
  match part with
  | JObj fields =>
      match lookup "inlineData" fields with
      | JObj inlineData => lookup "data" inlineData
      | _ => JUndefined
      end
  | _ => JUndefined
  end.

(** The probability of the first safety rating of the first candidate. *)
Definition first_rating_probability (result : JsVal) : JsVal :=
  match result with
  | JObj fields =>
      match opt_first (lookup "candidates" fields) with
      | JObj candidate =>
          match opt_first (lookup "safetyRatings" candidate) with
          | JObj rating => lookup "probability" rating
          | _ => JUndefined
          end
      | _ => JUndefined
      end
  | _ => JUndefined
  end.

(** The events lines 64-76 leave in the trace. *)
Definition parse_events (req_body : JsVal) : list Event :=
  match req_body with
  | JStr s =>
      if Nat.ltb 0 (String.length s) then
        match JSON_parse s with
        | Some _ => [EvJsonParse s]
        | None =>
            [EvJsonParse s;
             EvConsoleWarn
               [LStr "手動解析請求主體失敗，可能是無效的 JSON 格式:";
                LStr (engine_message (JsonSyntax s))]]
        end
      else []
  | _ => []
  end.

(** Every element can be asked for [inlineData] and none carries it. *)
Definition no_inline_part (items : list JsVal) : Prop :=
  Forall (fun p => nullish p = false /\ carries_inlineData p = false) items.

(** Line 126, the console line of a reply without usable data. *)
Definition blocked_log (result : JsVal) : Event :=
  EvConsoleError
    [LStr "Gemini API response structure error or blocked content:";
     LStr (JSON_stringify result (Some 2))].

(** *** Vocabulary of the further properties *)

Definition is_sleep (ev : Event) : bool :=
  match ev with EvSleep _ => true | _ => false end.

(** The timers found in a trace. *)
Definition sleep_count (t : list Event) : nat :=
  List.length (List.filter is_sleep t).

(** A computation that neither advances the clock nor leaves a trace. *)
Definition silent {A : Type} (m : M A) : Prop :=
  forall c, exists r, m c = (r, c, []).

(** The request the handler sends upstream for a decoded body: the text
    of the model name and the key go into the URL, the prompt and the
    image into the JSON body. *)
Definition sent_url (name : string) : string :=
  (API_URL_BASE ++ "/" ++ name ++ ":generateContent?key=" ++ API_KEY)%string.

Definition sent_options (requestBody : JsVal) : FetchOptions :=
  api_options
    (build_payload (field_of requestBody "promptText")
       (field_of (field_of requestBody "image") "mimeType")
       (field_of (field_of requestBody "image") "data")).

(** Line 138, the console line of the outer [catch]. *)
Definition internal_log (e : JsError) : Event :=
  EvConsoleError [LStr "處理 API 請求時發生錯誤:"; LErr e].

(** *** Doubles as integers

    The value of a finite double [m * 2^e] has [e >= -1074], and the exact
    product of a draw with 1000 has [e >= -1117]: multiplied by [2^K] every
    value at play is an integer. *)

Definition K : Z := 1117.

(** The value [m * 2^e], in units of [2^-K]. *)
Definition scaled (m e : Z) : Z := m * 2 ^ (e + K).

(** After [k] right shifts of [m0]: what is left, what fell off. *)
Definition shifted (m0 : Z) (k : Z) (mrs : shr_record) : Prop :=
  0 <= shr_m mrs
  /\ exists rem, m0 = shr_m mrs * 2 ^ k + rem
                 /\ 0 <= rem < 2 ^ k
                 /\ (rem = 0 -> shr_r mrs = false /\ shr_s mrs = false).

(** The double [x] is finite and its value is the positive integer [n]. *)
Definition is_integer_double (x : float) (n : Z) : Prop :=
  exists m e, Prim2SF x = S754_finite false m e
              /\ scaled (Zpos m) e = n * 2 ^ K.

(** [Math.pow(2, attempt) * 1000], the delay without its jitter. *)
Definition base_delay (attempt : Z) : float := (Z.ldexp 1 attempt * 1000)%float.

(** For the exponent [a], the base delay is the double
    [1000 * 2^43 * 2^(a - 43)], and the base delay plus 1000 is a double of
    value [(2^a + 1) * 1000]: both are exact. *)
Definition base_check (a : Z) : bool :=
  match Prim2SF (base_delay a), Prim2SF (base_delay a + 1000)%float with
  | S754_finite false mB eB, S754_finite false mH eH =>
      (Zpos mB =? 1000 * 2 ^ 43) && (eB =? a - 43)
      && (scaled (Zpos mH) eH =? (2 ^ a + 1) * 125 * 2 ^ (3 + K))
  | _, _ => false
  end.

(** *** A sample platform

    Stand-ins for the runtime and the network, used to run the program on
    concrete requests. *)

Definition nullish_name (v : JsVal) : string :=
  match v with
  | JNull => "null"
  | _ => "undefined"
  end.

Definition sample_engine_message (f : HostFault) : string :=
  match f with
  | DestructureNullish v =>
      ("Cannot destructure property 'promptText' of 'requestBody' as it is "
       ++ nullish_name v ++ ".")%string
  | ReadOfNullish v prop =>
      ("Cannot read properties of " ++ nullish_name v
       ++ " (reading '" ++ prop ++ "')")%string
  | NotAFunction prop => (prop ++ " is not a function")%string
  | JsonSyntax _ => "Unexpected token in JSON"
  end.

(** ["name"], a JSON string literal without escapes. *)
Definition quoted (name : string) : string :=
  let q := String (ascii_of_nat 34) EmptyString in
  (q ++ name ++ q)%string.

(** A reply with a text part followed by an image part. *)
Definition sample_image_part : JsVal :=
  JObj [("inlineData",
         JObj [("mimeType", JStr "image/png"); ("data", JStr "iVBORw0KGgo=")])].

Definition sample_reply : JsVal :=
  JObj [("candidates",
         JArr [JObj [("content",
                      JObj [("parts",
                             JArr [JObj [("text", JStr "sticker")];
                                   sample_image_part])])]])].

Definition sample_reply_text : string :=
  ("{" ++ quoted "candidates" ++ ":[{" ++ quoted "content" ++ ":{"
   ++ quoted "parts" ++ ":[{" ++ quoted "text" ++ ":" ++ quoted "sticker"
   ++ "},{" ++ quoted "inlineData" ++ ":{" ++ quoted "mimeType" ++ ":"
   ++ quoted "image/png" ++ "," ++ quoted "data" ++ ":"
   ++ quoted "iVBORw0KGgo=" ++ "}}]}}]}")%string.

(** A reply without content, rated HIGH by the first safety rating. *)
Definition sample_blocked : JsVal :=
  JObj [("candidates",
         JArr [JObj [("safetyRatings",
                      JArr [JObj [("probability", JStr "HIGH")]])]])].

Definition sample_blocked_text : string :=
  ("{" ++ quoted "candidates" ++ ":[{" ++ quoted "safetyRatings" ++ ":[{"
   ++ quoted "probability" ++ ":" ++ quoted "HIGH" ++ "}]}]}")%string.

(** [JSON.parse] on the texts the samples use; anything else, such as
    [[object Object]], is not JSON. *)
Definition sample_JSON_parse (input : string) : option JsVal :=
  if String.eqb input "null" then Some JNull
  else if String.eqb input "{}" then Some (JObj [])
  else if String.eqb input sample_reply_text then Some sample_reply
  else if String.eqb input sample_blocked_text then Some sample_blocked
  else None.

(** The sample upstreams never read the request they are sent, so the
    stand-in for [JSON.stringify] only tells [null] from the rest. *)
Definition sample_JSON_stringify (v : JsVal) (space : option Z) : string :=
  match v with
  | JNull => "null"
  | _ => "{}"
  end.

(** Whether an object has an own property [k]. *)
Definition has_key (k : string) (fields : list (string * JsVal)) : bool :=
  existsb (fun kv => String.eqb k (fst kv)) fields.

(** The integer a double is, when it is one of magnitude at most [2^53]:
    these print as their decimal digits. *)
Definition integer_of (x : float) : option Z :=
  match Prim2SF x with
  | S754_zero _ => Some 0
  | S754_finite s m e =>
      let sign := if s then -1 else 1 in
      if 0 <=? e then
        if Zpos m * 2 ^ e <=? 2 ^ 53 then Some (sign * (Zpos m * 2 ^ e))
        else None
      else if Zpos m mod 2 ^ (- e) =? 0 then
        Some (sign * (Zpos m / 2 ^ (- e)))
      else None
  | _ => None
  end.

Definition no_primitive : JsError :=
  TypeError "Cannot convert object to primitive value".

(** The string conversion on data as [JSON.parse] builds it. A plain
    object inherits [Object.prototype.toString]; one with an own
    [toString] shadows it with something that is not a function, and its
    inherited [valueOf] returns the object itself, so the conversion
    raises. An array joins its elements with commas, [null] and
    [undefined] counting as empty. The decimal form of a number with a
    fraction or beyond [2^53] is left out: no sample carries one, and the
    text [NaN] stands in for it. *)
Fixpoint sample_ToString (v : JsVal) : Completion string :=
  match v with
  | JUndefined => Normal "undefined"
  | JNull => Normal "null"
  | JBool b => Normal (if b then "true" else "false")
  | JNum x =>
      match Prim2SF x with
      | S754_infinity false => Normal "Infinity"
      | S754_infinity true => Normal "-Infinity"
      | _ =>
          match integer_of x with
          | Some n => Normal (show n)
          | None => Normal "NaN"
          end
      end
  | JStr s => Normal s
  | JArr items =>
      (fix join (first : bool) (l : list JsVal) : Completion string :=
         match l with
         | [] => Normal ""
         | x :: rest =>
             match (if nullish x then Normal "" else sample_ToString x),
                   join false rest with
             | Normal a, Normal b =>
                 Normal ((if first then "" else ",") ++ a ++ b)%string
             | Abrupt e, _ => Abrupt e
             | _, Abrupt e => Abrupt e
             end
         end) true items
  | JObj fields =>
      if has_key "toString" fields then Abrupt no_primitive
      else Normal "[object Object]"
  end.

(** A complete request, already parsed by the host. *)
Definition sample_body : JsVal :=
  JObj [("promptText", JStr "a cat waving");
        ("image",
         JObj [("data", JStr "aGVsbG8="); ("mimeType", JStr "image/png")]);
        ("model", JStr "gemini-2.5-flash-image-preview")].

Definition sample_request : Request := mkRequest "POST" sample_body.

(** A body with every required field truthy whose [model] is an object
    with an own [toString] that is not a function. *)
Definition sample_body_unnamed : JsVal :=
  JObj [("promptText", JStr "a cat waving");
        ("image",
         JObj [("data", JStr "aGVsbG8="); ("mimeType", JStr "image/png")]);
        ("model", JObj [("toString", JNum 1)])].

Definition sample_key : option string := Some "test-key".

(** Upstreams that answer every call alike. *)
Definition always (r : Response) : nat -> FetchOutcome := fun _ => Resolves r.

Definition reply_500 : Response := mkResponse 500 (Normal "upstream down").
Definition reply_400 : Response := mkResponse 400 (Normal "bad request").
Definition reply_image : Response := mkResponse 200 (Normal sample_reply_text).
Definition reply_blocked : Response :=
  mkResponse 200 (Normal sample_blocked_text).
Definition reply_null : Response := mkResponse 200 (Normal "null").

(** An upstream that fails twice with 503 and then answers. *)
Definition flaky (r : Response) : nat -> FetchOutcome :=
  fun k =>
    if Nat.ltb k 2 then Resolves (mkResponse 503 (Normal "busy"))
    else Resolves r.

(** Jitter draws: always one half, and always the largest double below 1
    that [Math.random] can return from 52 random bits, [1 - 2^-52]. *)
Definition draw_half : nat -> float := fun _ => 0.5%float.
Definition draw_top : nat -> float :=
  fun _ => (1 - Z.ldexp 1 (-52))%float.

(** A reply whose first image part has empty data and whose second has
    some, with its text, and [JSON.parse] extended to that text. *)
Definition sample_empty_part : JsVal :=
  JObj [("inlineData",
         JObj [("mimeType", JStr "image/png"); ("data", JStr "")])].

Definition sample_empty_first : JsVal :=
  JObj [("candidates",
         JArr [JObj [("content",
                      JObj [("parts",
                             JArr [sample_empty_part; sample_image_part])])]])].

Definition sample_empty_first_text : string :=
  ("{" ++ quoted "candidates" ++ ":[{" ++ quoted "content" ++ ":{"
   ++ quoted "parts" ++ ":[{" ++ quoted "inlineData" ++ ":{"
   ++ quoted "mimeType" ++ ":" ++ quoted "image/png" ++ "," ++ quoted "data"
   ++ ":" ++ quoted "" ++ "}},{" ++ quoted "inlineData" ++ ":{"
   ++ quoted "mimeType" ++ ":" ++ quoted "image/png" ++ "," ++ quoted "data"
   ++ ":" ++ quoted "iVBORw0KGgo=" ++ "}}]}}]}")%string.

Definition sample_JSON_parse_more (input : string) : option JsVal :=
  if String.eqb input sample_empty_first_text then Some sample_empty_first
  else sample_JSON_parse input.

Definition reply_empty_first : Response :=
  mkResponse 200 (Normal sample_empty_first_text).

(** ** Running the retry loop *)

Lemma try_fetch_run (url : string) (options : FetchOptions) (c : Clock) :
  try_fetch url options c =
    (attempt_result (upstream (fetched c)),
     mkClock (S (fetched c)) (drawn c),
     [EvFetch url options]).
Proof.
  unfold try_fetch, bind, fetch, attempt_result, response_text, lift, throw, ret.
  destruct (upstream (fetched c)) as [r | e]; [| reflexivity].
  destruct (ok r); simpl; [reflexivity |].
  destruct ((status r =? 429) || (status r >=? 500)); simpl; [reflexivity |].
  destruct (text r); reflexivity.
Qed.

(** One iteration of the loop, by what its [try] block does. *)
Lemma retry_loop_step (url : string) (options : FetchOptions) (maxRetries : Z)
    (remaining : nat) (attempt : Z) (c : Clock) :
  retry_loop url options maxRetries (S remaining) attempt c =
    match attempt_result (upstream (fetched c)) with
    | Normal r =>
        (Normal (Some r), mkClock (S (fetched c)) (drawn c),
         [EvFetch url options])
    | Abrupt e =>
        if attempt =? maxRetries - 1 then
          (Abrupt e, mkClock (S (fetched c)) (drawn c),
           [EvFetch url options; attempt_log attempt e])
        else
          let '(r, c', t) :=
            retry_loop url options maxRetries remaining (attempt + 1)
              (mkClock (S (fetched c)) (S (drawn c))) in
          (r, c',
           EvFetch url options :: attempt_log attempt e
             :: EvSleep (backoff_delay attempt (random (drawn c))) :: t)
    end.
Proof.
  cbn [retry_loop]. unfold try_catch at 1. unfold bind at 1.
  rewrite try_fetch_run.
  destruct (attempt_result (upstream (fetched c))) as [r | e]; [reflexivity |].
  unfold bind at 1. cbn [console_error emit attempt_log].
  destruct (attempt =? maxRetries - 1); [reflexivity |].
  unfold bind, Math_random, sleep, emit; cbn [fetched drawn].
  destruct (retry_loop url options maxRetries remaining (attempt + 1)
              (mkClock (S (fetched c)) (S (drawn c)))) as [[r c'] t].
  reflexivity.
Qed.

(** The loop never calls [fetch] more often than it has iterations. *)
Lemma retry_loop_fetch_cap (url : string) (options : FetchOptions)
    (maxRetries : Z) (remaining : nat) :
  forall (attempt : Z) (c : Clock),
    (fetch_count (trace_of (retry_loop url options maxRetries remaining attempt c))
     <= remaining)%nat.
Proof.
  induction remaining as [| k IH]; intros attempt c.
  - cbn. lia.
  - rewrite retry_loop_step.
    destruct (attempt_result (upstream (fetched c))) as [r | e]; [cbn; lia |].
    destruct (attempt =? maxRetries - 1); [cbn; lia |].
    specialize (IH (attempt + 1) (mkClock (S (fetched c)) (S (drawn c)))).
    destruct (retry_loop url options maxRetries k (attempt + 1)
                (mkClock (S (fetched c)) (S (drawn c)))) as [[r c'] t].
    unfold fetch_count, trace_of in *. cbn in *. lia.
Qed.

(** When every iteration fails, the loop makes all of them and rethrows
    the error of the last one. *)
Lemma retry_loop_all_fail (url : string) (options : FetchOptions)
    (maxRetries : Z) (remaining : nat) :
  forall (attempt : Z) (c : Clock),
    Z.of_nat (S remaining) + attempt = maxRetries ->
    (forall j, (j <= remaining)%nat ->
               attempt_fails (upstream (fetched c + j))) ->
    let run := retry_loop url options maxRetries (S remaining) attempt c in
    (exists e, attempt_result (upstream (fetched c + remaining)) = Abrupt e
               /\ result_of run = Abrupt e)
    /\ fetched (clock_of run) = (fetched c + S remaining)%nat
    /\ fetch_count (trace_of run) = S remaining.
Proof.
  induction remaining as [| k IH]; intros attempt c Hcap Hfail run; subst run.
  - rewrite retry_loop_step.
    destruct (Hfail 0%nat ltac:(lia)) as [e He].
    rewrite Nat.add_0_r in *. rewrite He.
    replace (attempt =? maxRetries - 1) with true by (symmetry; apply Z.eqb_eq; lia).
    cbn. repeat split; eauto; lia.
  - rewrite retry_loop_step.
    destruct (Hfail 0%nat ltac:(lia)) as [e He].
    rewrite Nat.add_0_r in He. rewrite He.
    replace (attempt =? maxRetries - 1) with false by (symmetry; apply Z.eqb_neq; lia).
    specialize (IH (attempt + 1) (mkClock (S (fetched c)) (S (drawn c)))).
    cbn [fetched] in IH.
    destruct IH as ((e' & Hlast & Hthrows) & Hclock & Hcount).
    + lia.
    + intros j Hj. replace (S (fetched c) + j)%nat with (fetched c + S j)%nat by lia.
      apply Hfail. lia.
    + replace (S (fetched c) + k)%nat with (fetched c + S k)%nat in Hlast by lia.
      destruct (retry_loop url options maxRetries (S k) (attempt + 1)
                  (mkClock (S (fetched c)) (S (drawn c)))) as [[r c'] t].
      unfold result_of, clock_of, trace_of, fetch_count in *. cbn in *.
      repeat split; eauto; lia.
Qed.

Lemma retriable_fails (o : FetchOutcome) :
  retriable o -> attempt_result o = Abrupt (observed_error o).
Proof.
  destruct o as [r | e]; cbn; [| reflexivity].
  intros H. unfold ok.
  assert (Hok : (200 <=? status r) && (status r <=? 299) = false).
  { apply andb_false_iff. destruct H as [H | H].
    - right. apply Z.leb_gt. lia.
    - right. apply Z.leb_gt. lia. }
  rewrite Hok.
  assert (Hre : (status r =? 429) || (status r >=? 500) = true).
  { apply orb_true_iff. destruct H as [H | H].
    - left. apply Z.eqb_eq. exact H.
    - right. apply Z.geb_le. lia. }
  rewrite Hre. reflexivity.
Qed.

Lemma fatal_fails (o : FetchOutcome) : fatal o -> attempt_fails o.
Proof.
  destruct o as [r | e]; cbn; [| tauto].
  intros (Hok & H429 & H500). unfold attempt_fails, attempt_result.
  rewrite Hok.
  destruct ((status r =? 429) || (status r >=? 500)); [eauto |].
  destruct (text r); eauto.
Qed.

(** The loop returns the first response that is [ok], after one [fetch]
    call per failed iteration before it and one for the response itself. *)
Lemma retry_loop_first_ok (url : string) (options : FetchOptions)
    (maxRetries : Z) (k : nat) (r : Response) :
  forall (remaining : nat) (attempt : Z) (c : Clock),
    (k < remaining)%nat ->
    Z.of_nat remaining + attempt = maxRetries ->
    (forall j, (j < k)%nat -> attempt_fails (upstream (fetched c + j))) ->
    upstream (fetched c + k) = Resolves r ->
    ok r = true ->
    let run := retry_loop url options maxRetries remaining attempt c in
    result_of run = Normal (Some r)
    /\ fetched (clock_of run) = (fetched c + S k)%nat
    /\ fetch_count (trace_of run) = S k.
Proof.
  induction k as [| k IH]; intros remaining attempt c Hk Hcap Hfail Hup Hok run;
    subst run; (destruct remaining as [| n]; [lia |]); rewrite retry_loop_step.
  - rewrite Nat.add_0_r in Hup. rewrite Hup. cbn [attempt_result]. rewrite Hok.
    cbn. repeat split; lia.
  - destruct (Hfail 0%nat ltac:(lia)) as [e He].
    rewrite Nat.add_0_r in He. rewrite He.
    replace (attempt =? maxRetries - 1) with false by (symmetry; apply Z.eqb_neq; lia).
    specialize (IH n (attempt + 1) (mkClock (S (fetched c)) (S (drawn c)))).
    cbn [fetched] in IH.
    destruct IH as (Hres & Hclock & Hcount).
    + lia.
    + lia.
    + intros j Hj. replace (S (fetched c) + j)%nat with (fetched c + S j)%nat by lia.
      apply Hfail. lia.
    + replace (S (fetched c) + k)%nat with (fetched c + S k)%nat by lia. exact Hup.
    + exact Hok.
    + destruct (retry_loop url options maxRetries n (attempt + 1)
                  (mkClock (S (fetched c)) (S (drawn c)))) as [[r' c'] t].
      unfold result_of, clock_of, trace_of, fetch_count in *. cbn in *.
      repeat split; auto; lia.
Qed.

(** ** Running the handler *)

Lemma bind_normal {A B : Type} (m : M A) (k : A -> M B) (c c1 : Clock)
    (a : A) (t1 : list Event) :
  m c = (Normal a, c1, t1) ->
  bind m k c = (let '(r, c2, t2) := k a c1 in (r, c2, t1 ++ t2)).
Proof. intros H. unfold bind. rewrite H. reflexivity. Qed.

Lemma bind_abrupt {A B : Type} (m : M A) (k : A -> M B) (c c1 : Clock)
    (e : JsError) (t1 : list Event) :
  m c = (Abrupt e, c1, t1) ->
  bind m k c = (Abrupt e, c1, t1).
Proof. intros H. unfold bind. rewrite H. reflexivity. Qed.

Lemma parse_body_run (req_body : JsVal) (c : Clock) :
  parse_body req_body c =
    (Normal (body_value req_body), c, parse_events req_body).
Proof.
  unfold parse_body, body_value, parse_events.
  destruct req_body; try reflexivity.
  destruct (Nat.ltb 0 (String.length s)); [| reflexivity].
  unfold try_catch, JSON_parse_call, bind, emit, console_warn, ret, throw.
  destruct (JSON_parse s); reflexivity.
Qed.

Lemma parse_events_no_fetch (req_body : JsVal) :
  fetch_count (parse_events req_body) = 0%nat.
Proof.
  unfold parse_events. destruct req_body; try reflexivity.
  destruct (Nat.ltb 0 (String.length s)); [| reflexivity].
  destruct (JSON_parse s); reflexivity.
Qed.

Lemma get_not_nullish (v : JsVal) (prop : string) (c : Clock) :
  nullish v = false ->
  exists w, get v prop c = (Normal w, c, []).
Proof.
  destruct v; intros H; try discriminate; unfold get, ret;
    eexists; reflexivity.
Qed.

Lemma truthy_not_nullish (v : JsVal) : truthy v = true -> nullish v = false.
Proof. destruct v; cbn; intros H; try discriminate; reflexivity. Qed.

(** Destructuring followed by the required-field check, on a body that is
    neither [undefined] nor [null]. *)
Lemma validation_run (requestBody : JsVal) (c : Clock) :
  nullish requestBody = false ->
  exists promptText image model,
    destructure requestBody c = (Normal (promptText, image, model), c, [])
    /\ missing_fields promptText image model c
        = (Normal (negb (complete requestBody)), c, []).
Proof.
  intros Hn.
  destruct requestBody; try discriminate;
    try (exists JUndefined, JUndefined, JUndefined; split; reflexivity).
  exists (lookup "promptText" fields), (lookup "image" fields),
    (lookup "model" fields).
  split; [reflexivity |].
  unfold missing_fields, complete.
  destruct (truthy (lookup "promptText" fields)); [| reflexivity].
  destruct (lookup "image" fields) as [| | b | x | s | items | image];
    try reflexivity.
  - destruct b; reflexivity.
  - cbn [truthy negb].
    destruct (negb (PrimFloat.eqb x 0 || is_nan x)); reflexivity.
  - cbn [truthy]. destruct (negb (String.eqb s "")); reflexivity.
  - cbn [truthy negb get bind ret].
    unfold bind, ret.
    destruct (truthy (lookup "data" image)); [| reflexivity].
    destruct (truthy (lookup "mimeType" image)); [| reflexivity].
    cbn. destruct (truthy (lookup "model" fields)); reflexivity.
Qed.

(** A body with a required field missing is answered 400 before any
    upstream call, provided it is neither [undefined] nor [null]. *)
Lemma handle_post_incomplete (req : Request) (c : Clock) :
  nullish (body_value (body req)) = false ->
  complete (body_value (body req)) = false ->
  handle_post req c =
    (Normal (mkHttp 400 (error_body msg_missing)), c,
     parse_events (body req)).
Proof.
  intros Hn Hc. unfold handle_post.
  rewrite (bind_normal _ _ _ _ _ _ (parse_body_run (body req) c)).
  destruct (validation_run (body_value (body req)) c Hn)
    as (promptText & image & model & Hd & Hm).
  rewrite (bind_normal _ _ _ _ _ _ Hd).
  rewrite (bind_normal _ _ _ _ _ _ Hm).
  rewrite Hc. cbn. rewrite app_nil_r. reflexivity.
Qed.

(** A body that is [undefined] or [null] makes the destructuring raise. *)
Lemma handle_post_nullish (req : Request) (c : Clock) :
  nullish (body_value (body req)) = true ->
  handle_post req c =
    (Abrupt (TypeError
               (engine_message (DestructureNullish (body_value (body req))))),
     c, parse_events (body req)).
Proof.
  intros Hn. unfold handle_post.
  rewrite (bind_normal _ _ _ _ _ _ (parse_body_run (body req) c)).
  destruct (body_value (body req)); try discriminate;
    cbn; rewrite app_nil_r; reflexivity.
Qed.

Lemma get_field (v : JsVal) (prop : string) (c : Clock) :
  nullish v = false -> get v prop c = (Normal (field_of v prop), c, []).
Proof. destruct v; intros H; try discriminate; reflexivity. Qed.

Lemma destructure_fields (v : JsVal) (c : Clock) :
  nullish v = false ->
  destructure v c
    = (Normal (field_of v "promptText", field_of v "image", field_of v "model"),
       c, []).
Proof. destruct v; intros H; try discriminate; reflexivity. Qed.

Lemma complete_image (v : JsVal) :
  complete v = true ->
  nullish v = false /\ nullish (field_of v "image") = false.
Proof.
  destruct v as [| | | | | | fields]; try discriminate. cbn [complete field_of].
  intros H. split; [reflexivity |].
  destruct (lookup "image" fields); try reflexivity;
    rewrite ?andb_false_r in H; cbn in H; try discriminate;
    destruct (truthy (lookup "promptText" fields)); discriminate.
Qed.

(** Line 86 on the model of a decoded body. *)
Lemma api_url_run (requestBody : JsVal) (c : Clock) :
  api_url (field_of requestBody "model") c =
    (match model_name requestBody with
     | Normal name => Normal (sent_url name)
     | Abrupt e => Abrupt e
     end, c, []).
Proof.
  unfold api_url, interpolate, model_name, sent_url, bind, ret, lift.
  destruct (field_of requestBody "model"); try reflexivity;
    match goal with
    | |- context [ToString ?v] => destruct (ToString v)
    end; reflexivity.
Qed.

(** A complete body whose model has a text is sent upstream as [sent_url]
    and [sent_options]; the answer is whatever [deliver] makes of the
    reply. *)
Lemma handle_post_sends (req : Request) (c : Clock) (name : string) :
  complete (body_value (body req)) = true ->
  model_name (body_value (body req)) = Normal name ->
  handle_post req c =
    match fetchWithRetry (sent_url name)
            (sent_options (body_value (body req))) 5 c with
    | (Normal response, c1, t1) =>
        let '(r, c2, t2) := deliver response c1 in
        (r, c2, parse_events (body req) ++ t1 ++ t2)
    | (Abrupt e, c1, t1) => (Abrupt e, c1, parse_events (body req) ++ t1)
    end.
Proof.
  intros Hc Hname. destruct (complete_image _ Hc) as [Hn Hi].
  unfold handle_post.
  rewrite (bind_normal _ _ _ _ _ _ (parse_body_run (body req) c)).
  rewrite (bind_normal _ _ _ _ _ _ (destructure_fields _ c Hn)).
  destruct (validation_run (body_value (body req)) c Hn)
    as (promptText & image & model & Hd & Hm).
  rewrite (destructure_fields _ c Hn) in Hd. injection Hd as <- <- <-.
  rewrite (bind_normal _ _ _ _ _ _ Hm). rewrite Hc. cbn [negb].
  assert (Hu : api_url (field_of (body_value (body req)) "model") c
               = (Normal (sent_url name), c, [])).
  { rewrite api_url_run, Hname. reflexivity. }
  rewrite (bind_normal _ _ _ _ _ _ Hu).
  rewrite (bind_normal _ _ _ _ _ _ (get_field _ "mimeType" c Hi)).
  rewrite (bind_normal _ _ _ _ _ _ (get_field _ "data" c Hi)).
  unfold bind at 1. fold (sent_options (body_value (body req))).
  destruct (fetchWithRetry (sent_url name)
              (sent_options (body_value (body req))) 5 c)
    as [[[response | e] c1] t1].
  - destruct (deliver response c1) as [[r c2] t2]. reflexivity.
  - cbn. reflexivity.
Qed.

(** A complete body whose model has no text makes line 86 raise, before
    anything is sent. *)
Lemma handle_post_unnamed (req : Request) (c : Clock) (e : JsError) :
  complete (body_value (body req)) = true ->
  model_name (body_value (body req)) = Abrupt e ->
  handle_post req c = (Abrupt e, c, parse_events (body req)).
Proof.
  intros Hc Hname. destruct (complete_image _ Hc) as [Hn Hi].
  unfold handle_post.
  rewrite (bind_normal _ _ _ _ _ _ (parse_body_run (body req) c)).
  rewrite (bind_normal _ _ _ _ _ _ (destructure_fields _ c Hn)).
  destruct (validation_run (body_value (body req)) c Hn)
    as (promptText & image & model & Hd & Hm).
  rewrite (destructure_fields _ c Hn) in Hd. injection Hd as <- <- <-.
  rewrite (bind_normal _ _ _ _ _ _ Hm). rewrite Hc. cbn [negb].
  assert (Hu : api_url (field_of (body_value (body req)) "model") c
               = (Abrupt e, c, [])).
  { rewrite api_url_run, Hname. reflexivity. }
  rewrite (bind_abrupt _ _ _ _ _ _ Hu). cbn. rewrite app_nil_r. reflexivity.
Qed.

(** The optional chain of line 119 reaches the parts of the first
    candidate, whatever the shape of the reply. *)
Lemma extract_base64_parts (result : JsVal) (c : Clock) :
  extract_base64 result c =
    bind (opt_find_inlineData (first_candidate_parts result))
      (fun part =>
         inlineData <- opt_get part "inlineData" ;;
         opt_get inlineData "data") c.
Proof.
  unfold extract_base64, first_candidate_parts.
  destruct result as [| | b | x | s | items | fields]; try reflexivity.
  cbn [opt_get nullish get]. unfold bind at 1. cbn [ret].
  destruct (opt_first (lookup "candidates" fields))
    as [| | b | x | s | items | candidate]; try reflexivity.
  cbn [opt_get nullish get]. unfold bind at 1. cbn [ret].
  destruct (lookup "content" candidate)
    as [| | b | x | s | items | content]; try reflexivity.
  cbn [opt_get nullish get]. unfold bind at 1. cbn [ret].
  unfold bind.
  destruct (opt_find_inlineData (lookup "parts" content) c) as [[[part | e] c1] t1];
    cbn; [| reflexivity].
  destruct (opt_get part "inlineData" c1) as [[[i | e] c2] t2]; cbn;
    [| reflexivity].
  destruct (opt_get i "data" c2) as [[o c3] t3]. reflexivity.
Qed.

Lemma get_inlineData (p : JsVal) (c : Clock) :
  nullish p = false ->
  exists i, get p "inlineData" c = (Normal i, c, [])
            /\ truthy i = carries_inlineData p.
Proof.
  destruct p; intros H; try discriminate; unfold get, ret; cbn;
    eexists; split; reflexivity.
Qed.

Lemma find_inlineData_none (items : list JsVal) (c : Clock) :
  no_inline_part items ->
  find_inlineData items c = (Normal JUndefined, c, []).
Proof.
  induction 1 as [| p rest [Hn Hc] _ IH]; [reflexivity |].
  cbn [find_inlineData].
  destruct (get_inlineData p c Hn) as (i & Hg & Ht).
  rewrite (bind_normal _ _ _ _ _ _ Hg). rewrite Ht, Hc, IH. reflexivity.
Qed.

Lemma find_inlineData_first (before after : list JsVal) (part : JsVal)
    (c : Clock) :
  no_inline_part before ->
  carries_inlineData part = true ->
  find_inlineData (before ++ part :: after) c = (Normal part, c, []).
Proof.
  intros Hb Hp. induction Hb as [| p rest [Hn Hc] _ IH].
  - cbn [app find_inlineData].
    assert (Hn : nullish part = false) by (destruct part; try discriminate; reflexivity).
    destruct (get_inlineData part c Hn) as (i & Hg & Ht).
    rewrite (bind_normal _ _ _ _ _ _ Hg). rewrite Ht, Hp. reflexivity.
  - cbn [app find_inlineData].
    destruct (get_inlineData p c Hn) as (i & Hg & Ht).
    rewrite (bind_normal _ _ _ _ _ _ Hg). rewrite Ht, Hc, IH. reflexivity.
Qed.

(** The data the chain yields for the part that [find] returned. *)
Lemma inline_data_run (part : JsVal) (c : Clock) :
  bind (opt_get part "inlineData") (fun i => opt_get i "data") c
    = (Normal (inline_data_of part), c, []).
Proof.
  unfold inline_data_of.
  destruct part as [| | b | x | s | items | fields]; try reflexivity.
  cbn [opt_get nullish get]. unfold bind, ret.
  destruct (lookup "inlineData" fields); reflexivity.
Qed.

Lemma high_probability_run (result : JsVal) (c : Clock) :
  nullish result = false ->
  high_probability result c =
    (Normal (strict_eq_str (first_rating_probability result) "HIGH"), c, []).
Proof.
  intros Hn. unfold high_probability, first_rating_probability.
  destruct result as [| | b | x | s | items | fields]; try discriminate;
    try reflexivity.
  cbn [get]. unfold bind at 1. cbn [ret].
  destruct (opt_first (lookup "candidates" fields))
    as [| | b | x | s | items | candidate]; try reflexivity.
  cbn [opt_get nullish get]. unfold bind at 1. cbn [ret].
  destruct (opt_first (lookup "safetyRatings" candidate)); reflexivity.
Qed.

Lemma response_json_run (r : Response) (s : string) (result : JsVal)
    (c : Clock) :
  text r = Normal s ->
  JSON_parse s = Some result ->
  response_json r c = (Normal result, c, []).
Proof.
  intros Ht Hp. unfold response_json, response_text, lift, bind.
  rewrite Ht, Hp. reflexivity.
Qed.


(** The reply has no part carrying inline data: the answer is 500, with
    the message chosen by the first safety rating and the reply attached. *)
Lemma deliver_no_inline (r : Response) (s : string) (result : JsVal)
    (c : Clock) :
  text r = Normal s ->
  JSON_parse s = Some result ->
  nullish result = false ->
  (nullish (first_candidate_parts result) = true
   \/ exists items, first_candidate_parts result = JArr items
                    /\ no_inline_part items) ->
  deliver (Some r) c =
    (Normal
       (mkHttp 500
          (JObj
             [("error",
               JStr (if strict_eq_str (first_rating_probability result) "HIGH"
                     then msg_blocked else msg_failed));
              ("details", result)])),
     c, [blocked_log result]).
Proof.
  intros Ht Hp Hn Hparts. unfold deliver.
  rewrite (bind_normal _ _ _ _ _ _ (response_json_run r s result c Ht Hp)).
  assert (He : extract_base64 result c = (Normal JUndefined, c, [])).
  { rewrite extract_base64_parts.
    destruct Hparts as [Hnull | (items & Hitems & Hnone)].
    - destruct (first_candidate_parts result); try discriminate; reflexivity.
    - rewrite Hitems. cbn [opt_find_inlineData].
      rewrite (bind_normal _ _ _ _ _ _ (find_inlineData_none items c Hnone)).
      reflexivity. }
  rewrite (bind_normal _ _ _ _ _ _ He). cbn [truthy].
  unfold console_error, emit, bind at 1.
  rewrite (bind_normal _ _ _ _ _ _ (high_probability_run result c Hn)).
  reflexivity.
Qed.

Lemma key_present_truthy : API_KEY <> "" -> truthy (JStr API_KEY) = true.
Proof.
  intros H. cbn. destruct (String.eqb_spec API_KEY ""); [contradiction | reflexivity].
Qed.

Lemma handler_post (req : Request) (c : Clock) :
  API_KEY <> "" ->
  method req = "POST" ->
  handler req c =
    try_catch (handle_post req)
      (fun e =>
         console_error [LStr "處理 API 請求時發生錯誤:"; LErr e] ;;
         ret (mkHttp 500 (error_body (msg_internal e)))) c.
Proof.
  intros Hk Hm. unfold handler.
  rewrite (key_present_truthy Hk), Hm. reflexivity.
Qed.

Lemma nonempty_length (s : string) : s <> "" -> Nat.ltb 0 (String.length s) = true.
Proof. destruct s; [contradiction | reflexivity]. Qed.

(** ** Rounding to nearest in binary64

    The delay is computed in doubles, so its bounds are bounds on what
    [SFmul] and [SFadd], the specification of the primitive operations,
    round to. *)

Lemma fexp_eq (e : Z) : fexp prec emax e = Z.max (e - 53) (-1074).
Proof. reflexivity. Qed.

Lemma digits2_bounds (m : positive) :
  2 ^ (Zpos (digits2_pos m) - 1) <= Zpos m < 2 ^ Zpos (digits2_pos m).
Proof.
  induction m as [m IH | m IH |]; cbn [digits2_pos].
  - rewrite Pos2Z.inj_succ, (Pos2Z.inj_xI m).
    replace (Z.succ (Zpos (digits2_pos m)) - 1) with (Z.succ (Zpos (digits2_pos m) - 1)) by lia.
    rewrite !Z.pow_succ_r by lia. lia.
  - rewrite Pos2Z.inj_succ, (Pos2Z.inj_xO m).
    replace (Z.succ (Zpos (digits2_pos m)) - 1) with (Z.succ (Zpos (digits2_pos m) - 1)) by lia.
    rewrite !Z.pow_succ_r by lia. lia.
  - cbn. lia.
Qed.

Lemma digits2_le (m : positive) (k : Z) :
  Zpos m < 2 ^ k -> Zpos (digits2_pos m) <= k.
Proof.
  intros H. destruct (Z_le_gt_dec (Zpos (digits2_pos m)) k) as [Hle | Hgt]; [exact Hle |].
  exfalso. pose proof (digits2_bounds m) as [Hlo _].
  destruct (Z_lt_le_dec k 0) as [Hneg | Hpos].
  - rewrite Z.pow_neg_r in H by lia. lia.
  - assert (2 ^ k <= 2 ^ (Zpos (digits2_pos m) - 1)) by (apply Z.pow_le_mono_r; lia).
    lia.
Qed.

Lemma digits2_ge (m : positive) (k : Z) :
  2 ^ k <= Zpos m -> k < Zpos (digits2_pos m).
Proof.
  intros H. destruct (Z_lt_le_dec k (Zpos (digits2_pos m))) as [Hlt | Hge]; [exact Hlt |].
  exfalso. pose proof (digits2_bounds m) as [_ Hhi].
  assert (2 ^ Zpos (digits2_pos m) <= 2 ^ k) by (apply Z.pow_le_mono_r; lia).
  lia.
Qed.

Lemma iter_pos_invariant {A : Type} (f : A -> A) (P : Z -> A -> Prop) :
  (forall k x, 0 <= k -> P k x -> P (k + 1) (f x)) ->
  forall p k x, 0 <= k -> P k x -> P (k + Zpos p) (iter_pos f p x).
Proof.
  intros Hstep. induction p as [p IH | p IH |]; intros k x Hk HP; cbn [iter_pos].
  - replace (k + Zpos p~1) with (k + 1 + Zpos p + Zpos p) by lia.
    apply IH; [lia |]. apply IH; [lia |]. apply Hstep; assumption.
  - replace (k + Zpos p~0) with (k + Zpos p + Zpos p) by lia.
    apply IH; [lia |]. apply IH; assumption.
  - apply Hstep; assumption.
Qed.

Lemma shr_1_shifted (m0 k : Z) (mrs : shr_record) :
  0 <= k -> shifted m0 k mrs -> shifted m0 (k + 1) (shr_1 mrs).
Proof.
  intros Hk (Hm & rem & Heq & Hrem & Hexact). unfold shifted.
  rewrite Z.pow_add_r, Z.pow_1_r by lia.
  assert (Hp : 0 < 2 ^ k) by (apply Z.pow_pos_nonneg; lia).
  destruct mrs as [m r s]. cbn [shr_m shr_r shr_s] in *.
  destruct m as [| [p | p |] |]; cbn [shr_1 shr_m shr_r shr_s]; try lia.
  - split; [lia |]. exists rem. split; [lia |]. split; [lia |].
    intros H0. destruct (Hexact H0) as [-> ->]. split; reflexivity.
  - split; [lia |]. exists (2 ^ k + rem). rewrite (Pos2Z.inj_xI p) in Heq.
    split; [lia |]. split; [lia |]. intros H0. lia.
  - split; [lia |]. exists rem. rewrite (Pos2Z.inj_xO p) in Heq.
    split; [lia |]. split; [lia |].
    intros H0. destruct (Hexact H0) as [-> ->]. split; reflexivity.
  - split; [lia |]. exists (2 ^ k + rem).
    split; [lia |]. split; [lia |]. intros H0. lia.
Qed.

Lemma iter_shr_1_shifted (m0 : Z) (p : positive) :
  0 <= m0 ->
  shifted m0 (Zpos p) (iter_pos shr_1 p (Build_shr_record m0 false false)).
Proof.
  intros Hm.
  change (Zpos p) with (0 + Zpos p).
  apply (iter_pos_invariant shr_1 (shifted m0)).
  - intros k x Hk. apply shr_1_shifted. exact Hk.
  - lia.
  - split; [exact Hm |]. exists 0. cbn. repeat split; lia.
Qed.

Lemma rne_exact (m : Z) (mrs : shr_record) :
  shr_r mrs = false -> shr_s mrs = false ->
  round_nearest_even m (loc_of_shr_record mrs) = m.
Proof. destruct mrs as [m' r s]; cbn. intros -> ->. reflexivity. Qed.

Lemma rne_bounds (m : Z) (l : location) :
  m <= round_nearest_even m l <= m + 1.
Proof.
  destruct l as [| []]; cbn; try lia. destruct (Z.even m); lia.
Qed.

Lemma pow2_pos (k : Z) : 0 <= k -> 0 < 2 ^ k.
Proof. intros. apply Z.pow_pos_nonneg; lia. Qed.

Lemma pow2_split (a b : Z) : 0 <= a -> 0 <= b -> 2 ^ (a + b) = 2 ^ a * 2 ^ b.
Proof. intros. apply Z.pow_add_r; assumption. Qed.

(** No shift: [shr_fexp] leaves a mantissa alone when its exponent is
    already at or above the one the format asks for. *)
Lemma shr_fexp_no_shift (m e : Z) :
  fexp prec emax (Zdigits2 m + e) <= e ->
  shr_fexp prec emax m e loc_Exact = (Build_shr_record m false false, e).
Proof.
  intros H. unfold shr_fexp, shr. cbn [shr_record_of_loc].
  destruct (fexp prec emax (Zdigits2 m + e) - e) eqn:Hn; try reflexivity. lia.
Qed.

Lemma round_bracket (mx : positive) (ex g L U : Z) :
  - K <= ex -> ex <= g ->
  fexp prec emax (Zpos (digits2_pos mx) + ex) <= g ->
  g <= 970 ->
  L * 2 ^ (g + K) <= scaled (Zpos mx) ex <= U * 2 ^ (g + K) ->
  match binary_round_aux prec emax false (Zpos mx) ex loc_Exact with
  | S754_zero false => L <= 0
  | S754_finite false m e => L * 2 ^ (g + K) <= scaled (Zpos m) e <= U * 2 ^ (g + K)
  | _ => False
  end.
Proof.
  intros HK Hg Hfe Hmax Hb. unfold K in *.
  set (fe := fexp prec emax (Zpos (digits2_pos mx) + ex)) in *.
  destruct (Z_le_gt_dec fe ex) as [Hle | Hgt].
  - (* the mantissa already fits *)
    unfold binary_round_aux.
    rewrite shr_fexp_no_shift by (cbn [Zdigits2]; fold fe; exact Hle).
    cbn [shr_m loc_of_shr_record round_nearest_even].
    rewrite shr_fexp_no_shift by (cbn [Zdigits2]; fold fe; exact Hle).
    cbn [shr_m].
    replace (ex <=? emax - prec) with true by (symmetry; apply Z.leb_le; cbn; lia).
    exact Hb.
  - (* [fe - ex] bits are shifted out *)
    unfold binary_round_aux.
    assert (Hshr : shr_fexp prec emax (Zpos mx) ex loc_Exact
                   = (iter_pos shr_1 (Z.to_pos (fe - ex))
                        (Build_shr_record (Zpos mx) false false), fe)).
    { unfold shr_fexp, shr. cbn [Zdigits2 shr_record_of_loc]. fold fe.
      destruct (fe - ex) eqn:Hn; try lia. cbn [Z.to_pos]. f_equal. lia. }
    rewrite Hshr.
    destruct (iter_shr_1_shifted (Zpos mx) (Z.to_pos (fe - ex)) ltac:(lia))
      as (Hm1 & rem & Heq & Hrem & Hexact).
    rewrite Z2Pos.id in Heq, Hrem by lia.
    set (mrs := iter_pos shr_1 (Z.to_pos (fe - ex))
                  (Build_shr_record (Zpos mx) false false)) in *.
    set (m1 := shr_m mrs) in *.
    set (m2 := round_nearest_even m1 (loc_of_shr_record mrs)).
    pose proof (rne_bounds m1 (loc_of_shr_record mrs)) as Hrne. fold m2 in Hrne.
    assert (Hrne0 : rem = 0 -> m2 = m1).
    { intros H0. destruct (Hexact H0). apply rne_exact; assumption. }
    (* the powers of two at play *)
    pose proof (digits2_bounds mx) as [_ Hdig].
    assert (HN : 0 < 2 ^ (fe - ex)) by (apply pow2_pos; lia).
    assert (HP : 0 < 2 ^ (ex + 1117)) by (apply pow2_pos; lia).
    assert (HG : 0 < 2 ^ (g - fe)) by (apply pow2_pos; lia).
    assert (HgK : 2 ^ (g + 1117) = 2 ^ (g - fe) * 2 ^ (fe - ex) * 2 ^ (ex + 1117)).
    { rewrite <- !pow2_split by lia. f_equal. lia. }
    assert (HfK : 2 ^ (fe + 1117) = 2 ^ (fe - ex) * 2 ^ (ex + 1117)).
    { rewrite <- !pow2_split by lia. f_equal. lia. }
    assert (Hd53 : 2 ^ Zpos (digits2_pos mx) <= 2 ^ (fe - ex) * 2 ^ 53).
    { rewrite <- pow2_split by lia. apply Z.pow_le_mono_r; [lia |].
      unfold fe. rewrite fexp_eq. lia. }
    unfold scaled, K in Hb. rewrite HgK in Hb.
    set (N := 2 ^ (fe - ex)) in *. set (P := 2 ^ (ex + 1117)) in *.
    set (G := 2 ^ (g - fe)) in *.
    assert (Hlo : L * G * N <= Zpos mx).
    { apply (Z.mul_le_mono_pos_r _ _ P HP). lia. }
    assert (Hhi : Zpos mx <= U * G * N).
    { apply (Z.mul_le_mono_pos_r _ _ P HP). lia. }
    assert (Hm1lt : m1 < 2 ^ 53) by nia.
    assert (HL : L * G <= m1) by nia.
    assert (HU : m2 <= U * G).
    { destruct (Z.eq_dec rem 0) as [H0 | H0].
      - rewrite (Hrne0 H0). nia.
      - assert (m1 < U * G) by nia. lia. }
    assert (Hval : forall m3 e3, m3 * 2 ^ (e3 + 1117) = m2 * (N * P) ->
              L * (G * N * P) <= m3 * 2 ^ (e3 + 1117) <= U * (G * N * P)).
    { intros m3 e3 ->. split.
      - replace (L * (G * N * P)) with (L * G * (N * P)) by ring.
        apply Z.mul_le_mono_nonneg_r; nia.
      - replace (U * (G * N * P)) with (U * G * (N * P)) by ring.
        apply Z.mul_le_mono_nonneg_r; nia. }
    assert (Hfe_lo : -1074 <= fe) by (unfold fe; rewrite fexp_eq; lia).
    destruct (Z_lt_le_dec m2 (2 ^ 53)) as [Hsmall | Hbig].
    + (* no carry into a 54th bit *)
      rewrite shr_fexp_no_shift.
      2:{ rewrite fexp_eq. destruct m2 as [| q |]; cbn [Zdigits2]; try lia.
          pose proof (digits2_le q 53 Hsmall). lia. }
      cbn [shr_m]. destruct m2 as [| q |] eqn:Hm2; [nia | | lia].
      replace (fe <=? emax - prec) with true by (symmetry; apply Z.leb_le; cbn; lia).
      unfold scaled, K. rewrite HgK. apply Hval. rewrite HfK. reflexivity.
    + (* the mantissa rounded up to 2^53 *)
      assert (Hm2 : m2 = 2 ^ 53) by lia.
      rewrite Hm2.
      assert (Hshr2 : shr_fexp prec emax (2 ^ 53) fe loc_Exact
                      = (Build_shr_record (2 ^ 52) false false, fe + 1)).
      { unfold shr_fexp, shr. rewrite fexp_eq.
        change (Zdigits2 (2 ^ 53)) with 54.
        replace (Z.max (54 + fe - 53) (-1074) - fe) with 1 by lia.
        reflexivity. }
      rewrite Hshr2. cbn [shr_m]. change (2 ^ 52) with (Zpos (2 ^ 52)%positive).
      cbv iota beta.
      replace (fe + 1 <=? emax - prec) with true by (symmetry; apply Z.leb_le; cbn; lia).
      unfold scaled, K. rewrite HgK. apply Hval. rewrite Hm2.
      replace (fe + 1 + 1117) with (1 + (fe + 1117)) by lia.
      rewrite pow2_split by lia. rewrite HfK. fold N P.
      change (Zpos (2 ^ 52)%positive) with (2 ^ 52).
      change (2 ^ 53) with (2 ^ 52 * 2 ^ 1). ring.
Qed.

Lemma shl_align_spec (mx : positive) (ex ex' : Z) :
  let '(mz, ez) := shl_align mx ex ex' in
  ez = Z.min ex ex' /\ Zpos mz = Zpos mx * 2 ^ (ex - ez).
Proof.
  unfold shl_align. destruct (ex' - ex) as [| d | d] eqn:Hd; cbv beta iota.
  - split; [lia |]. rewrite Z.sub_diag, Z.pow_0_r. lia.
  - split; [lia |]. rewrite Z.sub_diag, Z.pow_0_r. lia.
  - split; [lia |]. change (Pos.iter xO mx d) with (shift_pos d mx).
    rewrite shift_pos_correct. replace (ex - ex') with (Zpos d) by lia.
    rewrite Z.mul_comm. reflexivity.
Qed.

Lemma digits2_shift (mx mz : positive) (k : Z) :
  0 <= k -> Zpos mz = Zpos mx * 2 ^ k ->
  Zpos (digits2_pos mz) = Zpos (digits2_pos mx) + k.
Proof.
  intros Hk Hz. pose proof (digits2_bounds mx) as [Hlo Hhi].
  assert (Hp : 0 < 2 ^ k) by (apply pow2_pos; exact Hk).
  assert (H1 : Zpos (digits2_pos mz) <= Zpos (digits2_pos mx) + k).
  { apply digits2_le. rewrite Hz, pow2_split by lia. nia. }
  assert (H2 : Zpos (digits2_pos mx) - 1 + k < Zpos (digits2_pos mz)).
  { apply digits2_ge. rewrite Hz, pow2_split by lia. nia. }
  lia.
Qed.

Lemma scaled_shift (m e k : Z) :
  - K <= e - k -> 0 <= k -> scaled (m * 2 ^ k) (e - k) = scaled m e.
Proof.
  intros He Hk. unfold scaled.
  replace (e + K) with (k + (e - k + K)) by lia.
  rewrite (pow2_split k (e - k + K)) by lia. ring.
Qed.

Lemma binary_round_bracket (mx : positive) (ex g L U : Z) :
  - K <= ex -> ex <= g ->
  fexp prec emax (Zpos (digits2_pos mx) + ex) <= g ->
  g <= 970 ->
  L * 2 ^ (g + K) <= scaled (Zpos mx) ex <= U * 2 ^ (g + K) ->
  match binary_round prec emax false mx ex with
  | S754_zero false => L <= 0
  | S754_finite false m e => L * 2 ^ (g + K) <= scaled (Zpos m) e <= U * 2 ^ (g + K)
  | _ => False
  end.
Proof.
  intros HK Hg Hfe Hmax Hb. unfold binary_round.
  pose proof (shl_align_spec mx ex (fexp prec emax (Zpos (digits2_pos mx) + ex))) as Hs.
  destruct (shl_align mx ex (fexp prec emax (Zpos (digits2_pos mx) + ex))) as [mz ez].
  destruct Hs as [Hez Hmz].
  assert (Hfe_lo : -1074 <= fexp prec emax (Zpos (digits2_pos mx) + ex))
    by (rewrite fexp_eq; lia).
  assert (Hdz : Zpos (digits2_pos mz) + ez = Zpos (digits2_pos mx) + ex).
  { rewrite (digits2_shift mx mz (ex - ez)); lia. }
  apply round_bracket; try (unfold K in *; lia).
  - rewrite Hdz. exact Hfe.
  - replace (scaled (Zpos mz) ez) with (scaled (Zpos mx) ex); [exact Hb |].
    rewrite Hmz, <- (scaled_shift (Zpos mx) ex (ex - ez)) by (unfold K in *; lia).
    f_equal. lia.
Qed.

(** What validity says of a finite double. *)
Lemma valid_finite (s : bool) (m : positive) (e : Z) :
  valid_binary (S754_finite s m e) = true ->
  -1074 <= e <= 971
  /\ Zpos m < 2 ^ 53
  /\ (-1074 < e -> 2 ^ 52 <= Zpos m).
Proof.
  cbn [SpecFloat.valid_binary]. unfold bounded, canonical_mantissa.
  rewrite andb_true_iff, Z.eqb_eq, Z.leb_le, fexp_eq.
  intros [Hc He]. change (emax - prec) with 971 in He.
  pose proof (digits2_bounds m) as [Hlo Hhi].
  split; [lia |]. split.
  - assert (2 ^ Zpos (digits2_pos m) <= 2 ^ 53) by (apply Z.pow_le_mono_r; lia). lia.
  - intros Hn. replace (Zpos (digits2_pos m) - 1) with 52 in Hlo by lia. exact Hlo.
Qed.

(** Valid doubles compare as their values do. *)
Lemma SFleb_by_value (m1 m2 : positive) (e1 e2 : Z) :
  valid_binary (S754_finite false m1 e1) = true ->
  valid_binary (S754_finite false m2 e2) = true ->
  scaled (Zpos m1) e1 <= scaled (Zpos m2) e2 ->
  SFleb (S754_finite false m1 e1) (S754_finite false m2 e2) = true.
Proof.
  intros V1 V2 Hle.
  destruct (valid_finite _ _ _ V1) as (He1 & Hm1 & Hn1).
  destruct (valid_finite _ _ _ V2) as (He2 & Hm2 & Hn2).
  unfold SFleb, SFcompare, scaled, K in *.
  destruct (Z.compare_spec e1 e2) as [Heq | Hlt | Hgt].
  - subst e2.
    assert (Hp : 0 < 2 ^ (e1 + 1117)) by (apply pow2_pos; lia).
    change (Pos.compare_cont Eq m1 m2) with (Pos.compare m1 m2).
    destruct (Pos.compare_spec m1 m2) as [H | H | H]; try reflexivity.
    exfalso. assert (Zpos m2 < Zpos m1) by lia. nia.
  - reflexivity.
  - exfalso.
    assert (Hp : 0 < 2 ^ (e2 + 1117)) by (apply pow2_pos; lia).
    assert (Hmono : 2 ^ (1 + (e2 + 1117)) <= 2 ^ (e1 + 1117))
      by (apply Z.pow_le_mono_r; lia).
    rewrite pow2_split in Hmono by lia.
    specialize (Hn1 ltac:(lia)).
    change (2 ^ 53) with (2 ^ 52 * 2) in Hm2. change (2 ^ 1) with 2 in Hmono.
    assert (H52 : 0 < 2 ^ 52) by (apply pow2_pos; lia).
    generalize dependent (2 ^ 52). generalize dependent (2 ^ (e1 + 1117)).
    generalize dependent (2 ^ (e2 + 1117)). intros. nia.
Qed.

Lemma SFleb_refl_finite (m : positive) (e : Z) :
  SFleb (S754_finite false m e) (S754_finite false m e) = true.
Proof.
  unfold SFleb, SFcompare. rewrite Z.compare_refl.
  change (Pos.compare_cont Eq m m) with (Pos.compare m m).
  rewrite Pos.compare_refl. reflexivity.
Qed.

Lemma base_check_table :
  forallb base_check (map Z.of_nat (seq 0 47)) = true.
Proof. vm_compute. reflexivity. Qed.

Lemma base_check_ok (a : Z) : 0 <= a <= 46 -> base_check a = true.
Proof.
  intros Ha. pose proof base_check_table as H.
  rewrite forallb_forall in H. apply H.
  rewrite in_map_iff. exists (Z.to_nat a). split; [lia |].
  apply in_seq. lia.
Qed.

(** A draw in [0, 1) is a zero or a positive double below one. *)
Lemma draw_shape (r : float) :
  (0 <=? r)%float = true -> (r <? 1)%float = true ->
  (exists s, Prim2SF r = S754_zero s)
  \/ exists m e, Prim2SF r = S754_finite false m e
                 /\ -1074 <= e <= -53 /\ Zpos m < 2 ^ 53.
Proof.
  rewrite leb_spec, ltb_spec. pose proof (Prim2SF_valid r) as V.
  change (Prim2SF 0) with (S754_zero false).
  change (Prim2SF 1) with (S754_finite false 4503599627370496 (-52)).
  destruct (Prim2SF r) as [s | s | | s m e]; intros H0 H1.
  - left. eauto.
  - destruct s; discriminate.
  - discriminate.
  - right. destruct s; [discriminate |].
    destruct (valid_finite _ _ _ V) as (He & Hm & Hn).
    exists m, e. split; [reflexivity |]. split; [| exact Hm].
    unfold SFltb, SFcompare in H1.
    destruct (Z.compare_spec e (-52)) as [Heq | Hlt | Hgt]; try discriminate; [| lia].
    exfalso. subst e.
    assert (Hx : -1074 < -52) by (clear; lia). specialize (Hn Hx).
    rewrite Pos.compare_cont_spec in H1.
    destruct (Pos.compare_spec m 4503599627370496) as [H | H | H];
      try discriminate.
    apply Pos2Z.pos_lt_pos in H.
    change (2 ^ 52) with 4503599627370496 in Hn. lia.
Qed.

(** The jitter [r * 1000] of a draw in [0, 1) is a zero or a positive
    double of value at most 1000. *)
Lemma jitter_shape (r : float) :
  (0 <=? r)%float = true -> (r <? 1)%float = true ->
  (exists s, Prim2SF (r * 1000)%float = S754_zero s)
  \/ exists m e, Prim2SF (r * 1000)%float = S754_finite false m e
                 /\ 0 <= scaled (Zpos m) e <= 125 * 2 ^ (3 + K).
Proof.
  intros H0 H1. rewrite mul_spec.
  change (Prim2SF 1000) with (S754_finite false 8796093022208000 (-43)).
  destruct (draw_shape r H0 H1) as [[s Hs] | (m & e & Hs & He & Hm)]; rewrite Hs.
  - left. exists (xorb s false). reflexivity.
  - unfold SF64mul, SFmul. cbn [xorb].
    assert (Hprod : Zpos (m * 8796093022208000) < 2 ^ 106).
    { rewrite Pos2Z.inj_mul. change (2 ^ 106) with (2 ^ 53 * 2 ^ 53).
      apply Z.mul_lt_mono_nonneg; lia. }
    pose proof (digits2_le _ _ Hprod) as Hdig.
    assert (HQ : 0 < 2 ^ (e + -43 + K)) by (apply pow2_pos; unfold K; lia).
    assert (Hone : Zpos m * 2 ^ (e + -43 + K) <= 2 ^ (K - 43)).
    { replace (K - 43) with (- e + (e + -43 + K)) by lia.
      rewrite (pow2_split (- e) (e + -43 + K)) by (unfold K; lia).
      apply Z.mul_le_mono_nonneg_r; [lia |].
      assert (2 ^ 53 <= 2 ^ (- e)) by (apply Z.pow_le_mono_r; lia). lia. }
    assert (R := round_bracket (m * 8796093022208000) (e + -43) 3 0 125).
    assert (R1 : - K <= e + -43) by (unfold K; lia).
    assert (R2 : e + -43 <= 3) by lia.
    assert (R3 : fexp prec emax
                   (Zpos (digits2_pos (m * 8796093022208000)) + (e + -43)) <= 3)
      by (rewrite fexp_eq; lia).
    assert (R4 : 3 <= 970) by lia.
    assert (R5 : 0 * 2 ^ (3 + K) <= scaled (Zpos (m * 8796093022208000)) (e + -43)
                 <= 125 * 2 ^ (3 + K)).
    { unfold scaled. rewrite Pos2Z.inj_mul. split; [nia |].
      replace (125 * 2 ^ (3 + K)) with (8796093022208000 * 2 ^ (K - 43))
        by (vm_compute; reflexivity).
      rewrite (Z.mul_comm (Zpos m)), <- Z.mul_assoc.
      apply Z.mul_le_mono_nonneg_l; [lia | exact Hone]. }
    specialize (R R1 R2 R3 R4 R5).
    destruct (binary_round_aux prec emax false (Zpos (m * 8796093022208000))
                (e + -43) loc_Exact) as [s | s | | s m' e'].
    + left. eauto.
    + destruct s; contradiction.
    + contradiction.
    + destruct s; [contradiction |]. right. exists m', e'.
      split; [reflexivity |]. lia.
Qed.

Lemma base_shape (a : Z) :
  0 <= a <= 46 ->
  Prim2SF (base_delay a) = S754_finite false 8796093022208000 (a - 43)
  /\ exists mH eH,
       Prim2SF (base_delay a + 1000)%float = S754_finite false mH eH
       /\ scaled (Zpos mH) eH = (2 ^ a + 1) * 125 * 2 ^ (3 + K).
Proof.
  intros Ha. pose proof (base_check_ok a Ha) as H. unfold base_check in H.
  destruct (Prim2SF (base_delay a)) as [| | | [] mB eB]; try discriminate.
  destruct (Prim2SF (base_delay a + 1000)%float) as [| | | [] mH eH];
    try discriminate.
  rewrite !andb_true_iff, !Z.eqb_eq in H. destruct H as [[HmB HeB] HH].
  split.
  - f_equal; [| exact HeB]. apply Pos2Z.inj. rewrite HmB. reflexivity.
  - exists mH, eH. split; [reflexivity | exact HH].
Qed.

Lemma scaled_base (a : Z) :
  0 <= a ->
  scaled 8796093022208000 (a - 43) = 2 ^ a * 125 * 2 ^ (3 + K).
Proof.
  intros Ha. unfold scaled.
  replace (a - 43 + K) with (a + (K - 43)) by lia.
  replace (3 + K) with (46 + (K - 43)) by lia.
  rewrite !pow2_split by (unfold K; lia).
  change 8796093022208000 with (125 * 2 ^ 46). ring.
Qed.

(** The delay of a draw in [0, 1) is a positive double whose value lies
    between the base delay and the base delay plus 1000. *)
Lemma delay_shape (a : Z) (r : float) :
  0 <= a <= 46 ->
  (0 <=? r)%float = true -> (r <? 1)%float = true ->
  exists m e,
    Prim2SF (base_delay a + r * 1000)%float = S754_finite false m e
    /\ 2 ^ a * 125 * 2 ^ (3 + K) <= scaled (Zpos m) e
       <= (2 ^ a + 1) * 125 * 2 ^ (3 + K).
Proof.
  intros Ha H0 H1.
  destruct (base_shape a Ha) as (HB & _).
  pose proof (scaled_base a ltac:(lia)) as HsB.
  assert (Hpa : 0 < 2 ^ a) by (apply pow2_pos; lia).
  assert (HpK : 0 < 2 ^ (3 + K)) by (apply pow2_pos; unfold K; lia).
  rewrite add_spec, HB.
  pose proof (Prim2SF_valid (r * 1000)%float) as Vj.
  destruct (jitter_shape r H0 H1) as [[s Hj] | (mj & ej & Hj & Hjb)];
    rewrite Hj in *.
  - exists 8796093022208000%positive, (a - 43). split; [reflexivity |].
    rewrite HsB. nia.
  - destruct (valid_finite _ _ _ Vj) as (Hej & _ & _).
    unfold SF64add, SFadd. cbn [cond_Zopp].
    set (ez := Z.min (a - 43) ej).
    pose proof (shl_align_spec 8796093022208000 (a - 43) ez) as S1.
    pose proof (shl_align_spec mj ej ez) as S2.
    destruct (shl_align 8796093022208000 (a - 43) ez) as [b1 z1].
    destruct (shl_align mj ej ez) as [b2 z2].
    destruct S1 as [Hz1 Hb1]. destruct S2 as [Hz2 Hb2]. cbn [fst].
    replace z1 with ez in Hb1 by lia. replace z2 with ez in Hb2 by lia.
    change (Zpos b1 + Zpos b2) with (Zpos (b1 + b2)).
    cbn [binary_normalize].
    assert (Hez : - K <= ez <= 3) by (unfold K, ez; lia).
    assert (Hsum : scaled (Zpos (b1 + b2)) ez
                   = scaled 8796093022208000 (a - 43) + scaled (Zpos mj) ej).
    { rewrite Pos2Z.inj_add, Hb1, Hb2. unfold scaled at 1.
      rewrite Z.mul_add_distr_r.
      rewrite <- (scaled_shift 8796093022208000 (a - 43) (a - 43 - ez))
        by (unfold ez; lia).
      rewrite <- (scaled_shift (Zpos mj) ej (ej - ez)) by (unfold ez; lia).
      unfold scaled. f_equal; do 2 f_equal; lia. }
    rewrite HsB in Hsum.
    assert (Hlt : (2 ^ a + 1) * 125 * 2 ^ (3 + K) < 2 ^ (56 + K)).
    { replace (56 + K) with (53 + (3 + K)) by lia.
      rewrite (pow2_split 53 (3 + K)) by (unfold K; lia).
      apply Z.mul_lt_mono_pos_r; [exact HpK |].
      assert (2 ^ a <= 2 ^ 46) by (apply Z.pow_le_mono_r; lia). lia. }
    assert (Hdig : Zpos (digits2_pos (b1 + b2)) <= 56 - ez).
    { apply digits2_le.
      assert (Hq : 0 < 2 ^ (ez + K)) by (apply pow2_pos; lia).
      apply (Z.mul_lt_mono_pos_r (2 ^ (ez + K)) _ _ Hq).
      rewrite <- pow2_split by lia.
      replace (56 - ez + (ez + K)) with (56 + K) by lia.
      fold (scaled (Zpos (b1 + b2)) ez). nia. }
    assert (R := binary_round_bracket (b1 + b2) ez 3 (2 ^ a * 125)
                   ((2 ^ a + 1) * 125)).
    assert (R3 : fexp prec emax (Zpos (digits2_pos (b1 + b2)) + ez) <= 3)
      by (rewrite fexp_eq; lia).
    assert (R5 : 2 ^ a * 125 * 2 ^ (3 + K) <= scaled (Zpos (b1 + b2)) ez
                 <= (2 ^ a + 1) * 125 * 2 ^ (3 + K)) by nia.
    specialize (R ltac:(lia) ltac:(lia) R3 ltac:(lia) R5).
    destruct (binary_round prec emax false (b1 + b2) ez) as [s | s | | s m e].
    + destruct s; [contradiction | nia].
    + destruct s; contradiction.
    + contradiction.
    + destruct s; [contradiction |]. exists m, e. split; [reflexivity | exact R].
Qed.

(** Such a delay compares, as doubles compare, between the base delay and
    the base delay plus 1000. *)
Lemma delay_closed (a : Z) (r : float) :
  0 <= a <= 46 ->
  (0 <=? r)%float = true -> (r <? 1)%float = true ->
  (base_delay a <=? base_delay a + r * 1000)%float = true
  /\ (base_delay a + r * 1000 <=? base_delay a + 1000)%float = true.
Proof.
  intros Ha H0 H1.
  destruct (base_shape a Ha) as (HB & mH & eH & HH & HsH).
  destruct (delay_shape a r Ha H0 H1) as (m & e & Hd & Hlo & Hhi).
  pose proof (Prim2SF_valid (base_delay a)) as VB.
  pose proof (Prim2SF_valid (base_delay a + 1000)%float) as VH.
  pose proof (Prim2SF_valid (base_delay a + r * 1000)%float) as Vd.
  rewrite !leb_spec, HB, HH, Hd in *.
  split; apply SFleb_by_value; try assumption.
  - rewrite scaled_base by lia. exact Hlo.
  - rewrite HsH. exact Hhi.
Qed.

(** The two ends of the interval are doubles that hold their integers
    exactly. *)
Lemma base_delay_exact (a : Z) :
  0 <= a <= 46 ->
  is_integer_double (base_delay a) (2 ^ a * 1000)
  /\ is_integer_double (base_delay a + 1000)%float (2 ^ a * 1000 + 1000).
Proof.
  intros Ha. destruct (base_shape a Ha) as (HB & mH & eH & HH & HsH).
  assert (H8 : 2 ^ (3 + K) = 8 * 2 ^ K).
  { rewrite pow2_split by (unfold K; lia). reflexivity. }
  split.
  - exists 8796093022208000%positive, (a - 43). split; [exact HB |].
    rewrite scaled_base by lia. rewrite H8. ring.
  - exists mH, eH. split; [exact HH |]. rewrite HsH, H8. ring.
Qed.

(** ** The timers of the retry loop *)

Lemma retry_loop_trace_head (url : string) (options : FetchOptions)
    (maxRetries : Z) (remaining : nat) (attempt : Z) (c : Clock) :
  let t := trace_of (retry_loop url options maxRetries remaining attempt c) in
  t = [] \/ exists rest, t = EvFetch url options :: rest.
Proof.
  destruct remaining as [| k]; [left; reflexivity | right].
  rewrite retry_loop_step.
  destruct (attempt_result (upstream (fetched c))) as [r | e];
    [eexists; reflexivity |].
  destruct (attempt =? maxRetries - 1); [eexists; reflexivity |].
  destruct (retry_loop url options maxRetries k (attempt + 1)
              (mkClock (S (fetched c)) (S (drawn c)))) as [[r c'] t'].
  eexists; reflexivity.
Qed.

(** A timer that is pending when an iteration starts is the one that ran
    before its [fetch]; it plays no part for later calls. *)
Lemma delay_before_pending (url : string) (options : FetchOptions)
    (t : list Event) (pending : option float) :
  (t = [] \/ exists rest, t = EvFetch url options :: rest) ->
  ((0 < fetch_count t)%nat -> delay_before 0 pending t = pending)
  /\ forall n, delay_before (S n) pending t = delay_before (S n) None t.
Proof.
  intros [-> | [rest ->]].
  - split; [cbn; lia | reflexivity].
  - split; reflexivity.
Qed.

(** The timer that ran before the [n]-th call of the loop, [n >= 1], is
    the backoff delay computed by the iteration before it. *)
Lemma retry_loop_delay (url : string) (options : FetchOptions)
    (maxRetries : Z) (remaining : nat) :
  forall (attempt : Z) (c : Clock) (n : nat),
    let t := trace_of (retry_loop url options maxRetries remaining attempt c) in
    (S n < fetch_count t)%nat ->
    delay_before (S n) None t
      = Some (backoff_delay (attempt + Z.of_nat n) (random (drawn c + n))).
Proof.
  induction remaining as [| k IH]; intros attempt c n t Hn; subst t.
  - cbn in Hn. lia.
  - revert Hn. rewrite retry_loop_step.
    destruct (attempt_result (upstream (fetched c))) as [r | e];
      [cbn; lia |].
    destruct (attempt =? maxRetries - 1); [cbn; lia |].
    pose proof (retry_loop_trace_head url options maxRetries k (attempt + 1)
                  (mkClock (S (fetched c)) (S (drawn c)))) as Hhead.
    specialize (IH (attempt + 1) (mkClock (S (fetched c)) (S (drawn c)))).
    destruct (retry_loop url options maxRetries k (attempt + 1)
                (mkClock (S (fetched c)) (S (drawn c)))) as [[r c'] t'].
    unfold trace_of in *. cbn [snd fst drawn] in *.
    intros Hn.
    assert (Hn' : (n < fetch_count t')%nat).
    { unfold fetch_count in *. cbn in Hn. lia. }
    cbn [delay_before attempt_log].
    destruct (delay_before_pending url options t'
                (Some (backoff_delay attempt (random (drawn c)))) Hhead)
      as [H0 HS].
    destruct n as [| n'].
    + rewrite H0 by lia. rewrite Z.add_0_r, Nat.add_0_r. reflexivity.
    + rewrite HS, (IH n' Hn'). do 2 f_equal; [lia | f_equal; lia].
Qed.

(** ** The claims *)

(** C2 (amended). For every attempt index [n] from 1 to 47 that the loop
    reaches, with draws of [Math.random] in [0, 1), the timer that runs
    before attempt [n] is [Math.pow(2, n - 1) * 1000 + Math.random() * 1000]
    and lies in the closed interval from [2^(n-1) * 1000] to
    [2^(n-1) * 1000 + 1000] milliseconds, both ends exact doubles; no timer
    runs before attempt 0. *)
Theorem backoff_delay_closed_interval (url : string) (options : FetchOptions)
    (maxRetries : Z) (c : Clock) (n : nat) :
  (forall k, (0 <=? random k)%float = true /\ (random k <? 1)%float = true) ->
  (1 <= n <= 47)%nat ->
  (n < fetch_count (trace_of (fetchWithRetry url options maxRetries c)))%nat ->
  let run := fetchWithRetry url options maxRetries c in
  let d := backoff_delay (Z.of_nat n - 1) (random (drawn c + n - 1)) in
  delay_before n None (trace_of run) = Some d
  /\ (base_delay (Z.of_nat n - 1) <=? d)%float = true
  /\ (d <=? base_delay (Z.of_nat n - 1) + 1000)%float = true
  /\ is_integer_double (base_delay (Z.of_nat n - 1))
       (2 ^ (Z.of_nat n - 1) * 1000)
  /\ is_integer_double (base_delay (Z.of_nat n - 1) + 1000)%float
       (2 ^ (Z.of_nat n - 1) * 1000 + 1000)
  /\ delay_before 0 None (trace_of run) = None.
Proof.
  intros Hdraw Hn Hmade run d. subst run d.
  destruct n as [| m]; [lia |].
  replace (Z.of_nat (S m) - 1) with (Z.of_nat m) by lia.
  replace (drawn c + S m - 1)%nat with (drawn c + m)%nat by lia.
  destruct (Hdraw (drawn c + m)%nat) as [H0 H1].
  destruct (delay_closed (Z.of_nat m) (random (drawn c + m)) ltac:(lia) H0 H1)
    as [Hlo Hhi].
  destruct (base_delay_exact (Z.of_nat m) ltac:(lia)) as [HB HH].
  split; [| split; [exact Hlo | split; [exact Hhi |
            split; [exact HB | split; [exact HH |]]]]].
  - unfold fetchWithRetry in *.
    rewrite (retry_loop_delay url options maxRetries (Z.to_nat maxRetries)
               0 c m Hmade).
    reflexivity.
  - unfold fetchWithRetry.
    destruct (retry_loop_trace_head url options maxRetries
                (Z.to_nat maxRetries) 0 c) as [-> | [rest ->]]; reflexivity.
Qed.


(** C3. When every one of the [maxRetries] attempts (at least one) ends in
    a retriable outcome (HTTP 429, HTTP 5xx or a transport error),
    [fetchWithRetry] calls [fetch] exactly [maxRetries] times, so never
    past the cap, and then throws the error observed on the last attempt. *)
Theorem fetchWithRetry_exhausted (url : string) (options : FetchOptions)
    (maxRetries : Z) (c : Clock) :
  1 <= maxRetries ->
  (forall k, (k < Z.to_nat maxRetries)%nat ->
             retriable (upstream (fetched c + k))) ->
  let run := fetchWithRetry url options maxRetries c in
  result_of run
    = Abrupt (observed_error (upstream (fetched c + Z.to_nat maxRetries - 1)))
  /\ fetch_count (trace_of run) = Z.to_nat maxRetries
  /\ fetched (clock_of run) = (fetched c + Z.to_nat maxRetries)%nat.
Proof.
  intros Hmax Hretry run. subst run. unfold fetchWithRetry.
  destruct (Z.to_nat maxRetries) as [| n] eqn:Hn; [lia |].
  destruct (retry_loop_all_fail url options maxRetries n 0 c) as
    ((e & Hlast & Hres) & Hclock & Hcount).
  - lia.
  - intros j Hj. exists (observed_error (upstream (fetched c + j))).
    apply retriable_fails, Hretry. lia.
  - rewrite retriable_fails in Hlast by (apply Hretry; lia).
    injection Hlast as <-.
    replace (fetched c + S n - 1)%nat with (fetched c + n)%nat by lia.
    auto.
Qed.


(** C7. A body that arrives as a non-empty string and does not decode
    makes the handler neither raise nor call the upstream: the body is
    taken to be the empty object, and the required-field check answers
    400 with the missing-fields message. *)
Theorem undecodable_body_is_400 (req : Request) (s : string) (c : Clock) :
  API_KEY <> "" ->
  method req = "POST" ->
  body req = JStr s ->
  s <> "" ->
  JSON_parse s = None ->
  let run := handler req c in
  body_value (body req) = JObj []
  /\ result_of run = Normal (mkHttp 400 (error_body msg_missing))
  /\ fetch_count (trace_of run) = 0%nat.
Proof.
  intros Hkey Hpost Hbody Hs Hparse run. subst run.
  assert (Hv : body_value (body req) = JObj []).
  { rewrite Hbody. unfold body_value.
    rewrite (nonempty_length s Hs), Hparse. reflexivity. }
  rewrite (handler_post req c Hkey Hpost). unfold try_catch.
  rewrite handle_post_incomplete by (rewrite Hv; reflexivity).
  repeat split; auto. apply parse_events_no_fetch.
Qed.

(** C8. Without the upstream API key the handler answers 500 with the
    misconfiguration message whatever the request is: nothing is parsed,
    validated or fetched, and the method is not looked at. *)
Theorem missing_key_is_500 (req : Request) (c : Clock) :
  API_KEY = "" ->
  handler req c = (Normal (mkHttp 500 (error_body msg_no_key)), c, []).
Proof.
  intros Hk. unfold handler. rewrite Hk. reflexivity.
Qed.

(** C9. With the API key present, a request whose method is not POST is
    answered 405 whatever its body is, with no parsing of the body and no
    upstream call. *)
Theorem non_post_is_405 (req : Request) (c : Clock) :
  API_KEY <> "" ->
  method req <> "POST" ->
  handler req c = (Normal (mkHttp 405 (error_body msg_post_only)), c, []).
Proof.
  intros Hk Hm. unfold handler. rewrite (key_present_truthy Hk).
  destruct (String.eqb_spec (method req) "POST"); [contradiction | reflexivity].
Qed.

(** C10. For the empty string as body the manual [JSON.parse] is skipped,
    destructuring the string yields no required field, and the handler
    answers the 400 missing-fields response, the very run it makes for the
    empty object as body: nothing is raised and nothing is fetched. *)
Theorem empty_string_body_is_400 (req : Request) (c : Clock) :
  API_KEY <> "" ->
  method req = "POST" ->
  body req = JStr "" ->
  parse_body (body req) c = (Normal (JStr ""), c, [])
  /\ destructure (JStr "") c = (Normal (JUndefined, JUndefined, JUndefined), c, [])
  /\ handler req c = (Normal (mkHttp 400 (error_body msg_missing)), c, [])
  /\ handler req c = handler (mkRequest "POST" (JObj [])) c.
Proof.
  intros Hkey Hpost Hbody.
  assert (Hrun : forall req', method req' = "POST" ->
            body req' = JStr "" \/ body req' = JObj [] ->
            handler req' c = (Normal (mkHttp 400 (error_body msg_missing)), c, [])).
  { intros req' Hpost' Hb. rewrite (handler_post req' c Hkey Hpost').
    unfold try_catch.
    rewrite handle_post_incomplete; destruct Hb as [Hb | Hb]; rewrite Hb; reflexivity. }
  split; [rewrite Hbody; reflexivity |].
  split; [reflexivity |].
  split; [apply Hrun; auto |].
  rewrite (Hrun req), (Hrun (mkRequest "POST" (JObj []))); auto.
Qed.

(** ** Further properties *)

(** X1. A request whose decoded body is neither [undefined] nor [null] and
    lacks a required field is answered 400 with no upstream call. *)
Theorem incomplete_body_is_400 (req : Request) (c : Clock) :
  API_KEY <> "" ->
  method req = "POST" ->
  nullish (body_value (body req)) = false ->
  complete (body_value (body req)) = false ->
  let run := handler req c in
  result_of run = Normal (mkHttp 400 (error_body msg_missing))
  /\ fetch_count (trace_of run) = 0%nat.
Proof.
  intros Hkey Hpost Hn Hc run. subst run.
  rewrite (handler_post req c Hkey Hpost). unfold try_catch.
  rewrite handle_post_incomplete by assumption.
  split; [reflexivity | apply parse_events_no_fetch].
Qed.

(** X2. For a complete request whose model name has a text, a 2xx reply
    that parses to something other than [null] and has no part carrying
    inline data is answered 500: the content-policy message exactly when
    the first safety rating of the first candidate has probability "HIGH",
    the generic message otherwise, and the parsed reply as [details]. *)
Theorem reply_without_inline_data_is_500 (req : Request) (k : nat)
    (r : Response) (s : string) (result : JsVal) (c : Clock)
    (name : string) :
  API_KEY <> "" ->
  method req = "POST" ->
  complete (body_value (body req)) = true ->
  model_name (body_value (body req)) = Normal name ->
  Z.of_nat k < 5 ->
  (forall j, (j < k)%nat -> attempt_fails (upstream (fetched c + j))) ->
  upstream (fetched c + k) = Resolves r ->
  ok r = true ->
  text r = Normal s ->
  JSON_parse s = Some result ->
  nullish result = false ->
  (nullish (first_candidate_parts result) = true
   \/ exists items, first_candidate_parts result = JArr items
                    /\ no_inline_part items) ->
  result_of (handler req c)
    = Normal
        (mkHttp 500
           (JObj
              [("error",
                JStr (if strict_eq_str (first_rating_probability result) "HIGH"
                      then msg_blocked else msg_failed));
               ("details", result)])).
Proof.
  intros Hkey Hpost Hcomplete Hname Hk Hfail Hup Hok Ht Hp Hn Hparts.
  rewrite (handler_post req c Hkey Hpost). unfold try_catch.
  rewrite (handle_post_sends req c name Hcomplete Hname).
  unfold fetchWithRetry.
  set (url' := sent_url name).
  set (options' := sent_options (body_value (body req))).
  destruct (retry_loop_first_ok url' options' 5 k r (Z.to_nat 5) 0 c)
    as (Hres & _ & _); auto; try lia.
  destruct (retry_loop url' options' 5 (Z.to_nat 5) 0 c) as [[o c1] t1].
  unfold result_of in Hres. cbn in Hres. subst o.
  rewrite (deliver_no_inline r s result c1 Ht Hp Hn Hparts). reflexivity.
Qed.

(** X3. The handler never raises: every path ends in an answer. *)
Theorem handler_always_answers (req : Request) (c : Clock) :
  exists answer, result_of (handler req c) = Normal answer.
Proof.
  unfold handler.
  destruct (negb (truthy (JStr API_KEY))); [eexists; reflexivity |].
  destruct (negb (String.eqb (method req) "POST")); [eexists; reflexivity |].
  unfold try_catch.
  destruct (handle_post req c) as [[[answer | e] c1] t1];
    eexists; reflexivity.
Qed.

(** X4. Whatever the upstream does, [fetchWithRetry] calls [fetch] at most
    [maxRetries] times. *)
Theorem fetchWithRetry_cap (url : string) (options : FetchOptions)
    (maxRetries : Z) (c : Clock) :
  (fetch_count (trace_of (fetchWithRetry url options maxRetries c))
   <= Z.to_nat maxRetries)%nat.
Proof. apply retry_loop_fetch_cap. Qed.

(** A fatal status does not leave the loop: when every one of the
    [maxRetries] attempts fails, fatal ones included, all of them are
    made. *)
Lemma failures_use_every_attempt (url : string) (options : FetchOptions)
    (maxRetries : Z) (c : Clock) :
  1 <= maxRetries ->
  (forall k, (k < Z.to_nat maxRetries)%nat ->
             attempt_fails (upstream (fetched c + k))) ->
  fetch_count (trace_of (fetchWithRetry url options maxRetries c))
    = Z.to_nat maxRetries.
Proof.
  intros Hmax Hfail. unfold fetchWithRetry.
  destruct (Z.to_nat maxRetries) as [| n] eqn:Hn; [lia |].
  destruct (retry_loop_all_fail url options maxRetries n 0 c) as (_ & _ & Hcount).
  - lia.
  - intros j Hj. apply Hfail. lia.
  - exact Hcount.
Qed.

(** ** The shape of every run of the handler *)

Lemma fetch_count_app (t1 t2 : list Event) :
  fetch_count (t1 ++ t2) = (fetch_count t1 + fetch_count t2)%nat.
Proof. unfold fetch_count. rewrite filter_app, length_app. reflexivity. Qed.

Lemma sleep_count_app (t1 t2 : list Event) :
  sleep_count (t1 ++ t2) = (sleep_count t1 + sleep_count t2)%nat.
Proof. unfold sleep_count. rewrite filter_app, length_app. reflexivity. Qed.

Lemma parse_events_no_sleep (req_body : JsVal) :
  sleep_count (parse_events req_body) = 0%nat.
Proof.
  unfold parse_events. destruct req_body; try reflexivity.
  destruct (Nat.ltb 0 (String.length s)); [| reflexivity].
  destruct (JSON_parse s); reflexivity.
Qed.

Lemma silent_ret {A : Type} (a : A) : silent (ret a).
Proof. intros c. eexists. reflexivity. Qed.

Lemma silent_throw {A : Type} (e : JsError) : silent (@throw A e).
Proof. intros c. eexists. reflexivity. Qed.

Lemma silent_bind {A B : Type} (m : M A) (k : A -> M B) :
  silent m -> (forall a, silent (k a)) -> silent (bind m k).
Proof.
  intros Hm Hk c. destruct (Hm c) as [[a | e] Hr]; unfold bind; rewrite Hr.
  - destruct (Hk a c) as [r' Hr']. rewrite Hr'. eexists. reflexivity.
  - eexists. reflexivity.
Qed.

Lemma silent_get (v : JsVal) (prop : string) : silent (get v prop).
Proof. destruct v; cbn [get]; auto using silent_ret, silent_throw. Qed.

Lemma silent_opt_get (v : JsVal) (prop : string) : silent (opt_get v prop).
Proof.
  unfold opt_get. destruct (nullish v); auto using silent_ret, silent_get.
Qed.

Lemma silent_find_inlineData (items : list JsVal) :
  silent (find_inlineData items).
Proof.
  induction items as [| p rest IH]; cbn [find_inlineData].
  - apply silent_ret.
  - apply silent_bind; [apply silent_get |].
    intros i. destruct (truthy i); [apply silent_ret | exact IH].
Qed.

Lemma silent_extract_base64 (result : JsVal) : silent (extract_base64 result).
Proof.
  unfold extract_base64.
  repeat (apply silent_bind; [try apply silent_opt_get | intros ?]).
  - destruct a1; cbn [opt_find_inlineData];
      auto using silent_ret, silent_throw, silent_find_inlineData.
  - apply silent_opt_get.
Qed.

Lemma silent_high_probability (result : JsVal) :
  silent (high_probability result).
Proof.
  unfold high_probability.
  apply silent_bind; [apply silent_get | intros ?].
  apply silent_bind; [apply silent_opt_get | intros ?].
  apply silent_bind; [apply silent_opt_get | intros ?].
  apply silent_ret.
Qed.

Lemma silent_response_json (r : Response) : silent (response_json r).
Proof.
  unfold response_json. apply silent_bind.
  - intros c. unfold response_text, lift. eexists. reflexivity.
  - intros s. destruct (JSON_parse s); auto using silent_ret, silent_throw.
Qed.

(** Reading and shaping the reply makes no call and starts no timer, and
    answers 200 or 500 when it answers. *)
Lemma deliver_shape (response : option Response) (c : Clock) :
  exists r t,
    deliver response c = (r, c, t)
    /\ fetch_count t = 0%nat /\ sleep_count t = 0%nat
    /\ match r with
       | Normal answer => code answer = 200 \/ code answer = 500
       | Abrupt _ => True
       end.
Proof.
  unfold deliver.
  assert (Hj : silent
                 match response with
                 | Some r => response_json r
                 | None =>
                     throw (TypeError
                              (engine_message (ReadOfNullish JUndefined "json")))
                 end).
  { destruct response; auto using silent_response_json, silent_throw. }
  destruct (Hj c) as [[result | e] Hr].
  - rewrite (bind_normal _ _ _ _ _ _ Hr).
    destruct (silent_extract_base64 result c) as [[b | e] Hb].
    + rewrite (bind_normal _ _ _ _ _ _ Hb).
      destruct (truthy b).
      * do 2 eexists. split; [reflexivity |]. cbn. auto.
      * unfold console_error, emit, bind at 1.
        destruct (silent_high_probability result c) as [[h | e] Hh].
        -- rewrite (bind_normal _ _ _ _ _ _ Hh).
           do 2 eexists. split; [reflexivity |]. cbn. auto.
        -- rewrite (bind_abrupt _ _ _ _ _ _ Hh).
           do 2 eexists. split; [reflexivity |]. cbn. auto.
    + rewrite (bind_abrupt _ _ _ _ _ _ Hb).
      do 2 eexists. split; [reflexivity |]. cbn. auto.
  - rewrite (bind_abrupt _ _ _ _ _ _ Hr).
    do 2 eexists. split; [reflexivity |]. cbn. auto.
Qed.

(** Every run of the handler is one of six: no key, not a POST, a body
    that cannot be destructured, a body with a field missing, a complete
    body whose model name has no text, or a complete body that is sent
    upstream and whose outcome is shaped into an answer. *)
Lemma handler_cases (req : Request) (c : Clock) :
  (API_KEY = ""
   /\ handler req c = (Normal (mkHttp 500 (error_body msg_no_key)), c, []))
  \/ (API_KEY <> "" /\ method req <> "POST"
      /\ handler req c
         = (Normal (mkHttp 405 (error_body msg_post_only)), c, []))
  \/ (API_KEY <> "" /\ method req = "POST"
      /\ nullish (body_value (body req)) = true
      /\ let e :=
           TypeError
             (engine_message (DestructureNullish (body_value (body req)))) in
         handler req c
         = (Normal (mkHttp 500 (error_body (msg_internal e))), c,
            parse_events (body req) ++ [internal_log e]))
  \/ (API_KEY <> "" /\ method req = "POST"
      /\ nullish (body_value (body req)) = false
      /\ complete (body_value (body req)) = false
      /\ handler req c
         = (Normal (mkHttp 400 (error_body msg_missing)), c,
            parse_events (body req)))
  \/ (API_KEY <> "" /\ method req = "POST"
      /\ complete (body_value (body req)) = true
      /\ exists e,
           model_name (body_value (body req)) = Abrupt e
           /\ handler req c
              = (Normal (mkHttp 500 (error_body (msg_internal e))), c,
                 parse_events (body req) ++ [internal_log e]))
  \/ (API_KEY <> "" /\ method req = "POST"
      /\ complete (body_value (body req)) = true
      /\ exists name o c1 t1 answer t2,
           model_name (body_value (body req)) = Normal name
           /\ fetchWithRetry (sent_url name)
                (sent_options (body_value (body req))) 5 c = (o, c1, t1)
           /\ handler req c
              = (Normal answer, c1, parse_events (body req) ++ t1 ++ t2)
           /\ fetch_count t2 = 0%nat /\ sleep_count t2 = 0%nat
           /\ (code answer = 200 \/ code answer = 500)).
Proof.
  destruct (String.eqb_spec API_KEY "") as [Hk | Hk].
  { left. split; [exact Hk |]. unfold handler. rewrite Hk. reflexivity. }
  right.
  destruct (String.eqb_spec (method req) "POST") as [Hm | Hm].
  2:{ left. split; [exact Hk |]. split; [exact Hm |].
      unfold handler. rewrite (key_present_truthy Hk).
      destruct (String.eqb_spec (method req) "POST");
        [contradiction | reflexivity]. }
  right. rewrite (handler_post req c Hk Hm). unfold try_catch.
  destruct (nullish (body_value (body req))) eqn:Hn.
  { left. split; [exact Hk |]. split; [exact Hm |]. split; [reflexivity |].
    rewrite (handle_post_nullish req c Hn). reflexivity. }
  right.
  destruct (complete (body_value (body req))) eqn:Hc.
  2:{ left. split; [exact Hk |]. split; [exact Hm |].
      split; [reflexivity |]. split; [reflexivity |].
      rewrite (handle_post_incomplete req c Hn Hc). reflexivity. }
  right.
  destruct (model_name (body_value (body req))) as [name | e0] eqn:Hname.
  2:{ left. split; [exact Hk |]. split; [exact Hm |]. split; [reflexivity |].
      exists e0. split; [reflexivity |].
      rewrite (handle_post_unnamed req c e0 Hc Hname). reflexivity. }
  right. split; [exact Hk |]. split; [exact Hm |]. split; [reflexivity |].
  rewrite (handle_post_sends req c name Hc Hname).
  destruct (fetchWithRetry (sent_url name)
              (sent_options (body_value (body req))) 5 c)
    as [[[response | e] c1] t1] eqn:Hr.
  - destruct (deliver_shape response c1) as (r & td & Hd & Hf & Hs & Hcode).
    rewrite Hd. destruct r as [answer | e].
    + exists name, (Normal response), c1, t1, answer, td.
      split; [reflexivity |]. split; [exact Hr |]. auto.
    + exists name, (Normal response), c1, t1,
        (mkHttp 500 (error_body (msg_internal e))), (td ++ [internal_log e]).
      split; [reflexivity |]. split; [exact Hr |]. split.
      * cbn. rewrite <- !app_assoc. reflexivity.
      * rewrite fetch_count_app, sleep_count_app, Hf, Hs. cbn. auto.
  - exists name, (Abrupt e), c1, t1,
      (mkHttp 500 (error_body (msg_internal e))), [internal_log e].
    split; [reflexivity |]. split; [exact Hr |]. split.
    + cbn. rewrite <- !app_assoc. reflexivity.
    + cbn. auto.
Qed.

(** With five iterations ahead the loop calls [fetch] at least once and at
    most five times. *)
Lemma five_attempts (url : string) (options : FetchOptions) (c : Clock) :
  (1 <= fetch_count (trace_of (fetchWithRetry url options 5 c)) <= 5)%nat.
Proof.
  split; [| apply (retry_loop_fetch_cap url options 5 5 0 c)].
  unfold fetchWithRetry. change (Z.to_nat 5) with 5%nat.
  rewrite retry_loop_step.
  destruct (attempt_result (upstream (fetched c))); [cbn; lia |].
  destruct (0 =? 5 - 1); [cbn; lia |].
  destruct (retry_loop url options 5 4 (0 + 1)
              (mkClock (S (fetched c)) (S (drawn c)))) as [[r c'] t'].
  unfold trace_of, fetch_count. cbn. lia.
Qed.

(** X5. The status of the answer is always 200, 400, 405 or 500. *)
Theorem handler_status_codes (req : Request) (c : Clock) :
  exists answer,
    result_of (handler req c) = Normal answer
    /\ (code answer = 200 \/ code answer = 400
        \/ code answer = 405 \/ code answer = 500).
Proof.
  destruct (handler_cases req c)
    as [(_ & H) | [(_ & _ & H) | [(_ & _ & _ & H)
        | [(_ & _ & _ & _ & H)
        | [(_ & _ & _ & e & _ & H)
        | (_ & _ & _ & name & o & c1 & t1 & answer & t2
           & _ & _ & H & _ & _ & Hcode)]]]]];
    rewrite H; eexists; (split; [reflexivity |]); cbn; tauto.
Qed.

(** X6. The handler calls the upstream only for a POST with the key set
    and a complete body whose model name has a text, and then between one
    and five times. *)
Theorem upstream_called_only_when_valid (req : Request) (c : Clock) :
  let calls := fetch_count (trace_of (handler req c)) in
  (calls <= 5)%nat
  /\ ((0 < calls)%nat <->
      API_KEY <> "" /\ method req = "POST"
      /\ complete (body_value (body req)) = true
      /\ exists name, model_name (body_value (body req)) = Normal name).
Proof.
  cbv zeta.
  pose proof (parse_events_no_fetch (body req)) as Hpe.
  destruct (handler_cases req c)
    as [(Hk & H) | [(Hk & Hm & H) | [(Hk & Hm & Hn & H)
        | [(Hk & Hm & Hn & Hc & H)
        | [(Hk & Hm & Hc & e & Hname & H)
        | (Hk & Hm & Hc & name & o & c1 & t1 & answer & t2
           & Hname & Hr & H & Hf & _)]]]]];
    rewrite H; unfold trace_of; cbn [snd].
  - cbn. split; [lia |]. split; [lia | intros (Hk' & _); contradiction].
  - cbn. split; [lia |]. split; [lia | intros (_ & Hm' & _); contradiction].
  - rewrite fetch_count_app, Hpe. cbn. split; [lia |].
    split; [lia |]. intros (_ & _ & Hc & _).
    destruct (body_value (body req)); discriminate.
  - rewrite Hpe. split; [lia |]. split; [lia |].
    intros (_ & _ & Hc' & _). congruence.
  - rewrite fetch_count_app, Hpe. cbn. split; [lia |].
    split; [lia |]. intros (_ & _ & _ & name & Hname'). congruence.
  - pose proof (five_attempts (sent_url name)
                  (sent_options (body_value (body req))) c) as H5.
    rewrite Hr in H5. unfold trace_of in H5. cbn [snd] in H5.
    rewrite !fetch_count_app, Hpe, Hf. split; [lia |].
    split; [intros _; eauto | lia].
Qed.

Lemma no_fetch_forall (P : Event -> Prop) (t : list Event) :
  fetch_count t = 0%nat -> Forall (fun ev => is_fetch ev = true -> P ev) t.
Proof.
  induction t as [| ev t IH]; intros H; constructor.
  - intros Hf. unfold fetch_count in H. cbn in H. rewrite Hf in H.
    discriminate.
  - apply IH. unfold fetch_count in *. cbn in H.
    destruct (is_fetch ev); [discriminate | exact H].
Qed.

(** Every call of the loop carries the URL and the options it was given. *)
Lemma retry_loop_same_request (url : string) (options : FetchOptions)
    (maxRetries : Z) (remaining : nat) :
  forall (attempt : Z) (c : Clock),
    Forall (fun ev => is_fetch ev = true -> ev = EvFetch url options)
      (trace_of (retry_loop url options maxRetries remaining attempt c)).
Proof.
  induction remaining as [| k IH]; intros attempt c.
  - constructor.
  - rewrite retry_loop_step.
    destruct (attempt_result (upstream (fetched c))) as [r | e].
    { repeat constructor. }
    destruct (attempt =? maxRetries - 1).
    { repeat constructor. intros H. discriminate. }
    specialize (IH (attempt + 1) (mkClock (S (fetched c)) (S (drawn c)))).
    destruct (retry_loop url options maxRetries k (attempt + 1)
                (mkClock (S (fetched c)) (S (drawn c)))) as [[r c'] t'].
    unfold trace_of in *. cbn [snd] in *.
    repeat constructor; try (intros H; discriminate). exact IH.
Qed.

(** X9. Whatever happens, every upstream call of one run of the handler
    is the same request: a POST to [<base>/<model>:generateContent?key=<key>],
    where [<model>] is the text of the model name of the decoded request
    body, with a JSON body built from the prompt and the image of that
    body. *)
Theorem every_call_sends_the_request (req : Request) (c : Clock) :
  Forall
    (fun ev =>
       is_fetch ev = true ->
       exists name,
         model_name (body_value (body req)) = Normal name
         /\ ev = EvFetch (sent_url name)
                  (sent_options (body_value (body req))))
    (trace_of (handler req c)).
Proof.
  pose proof (parse_events_no_fetch (body req)) as Hpe.
  destruct (handler_cases req c)
    as [(Hk & H) | [(Hk & Hm & H) | [(Hk & Hm & Hn & H)
        | [(Hk & Hm & Hn & Hc & H)
        | [(Hk & Hm & Hc & e & Hname & H)
        | (Hk & Hm & Hc & name & o & c1 & t1 & answer & t2
           & Hname & Hr & H & Hf & _)]]]]];
    rewrite H; unfold trace_of; cbn [snd];
    try (apply no_fetch_forall; rewrite ?fetch_count_app, ?Hpe; reflexivity).
  pose proof (retry_loop_same_request (sent_url name)
                (sent_options (body_value (body req))) 5 (Z.to_nat 5) 0 c) as Hsame.
  fold (fetchWithRetry (sent_url name)
          (sent_options (body_value (body req))) 5 c) in Hsame.
  rewrite Hr in Hsame. unfold trace_of in Hsame. cbn [snd] in Hsame.
  rewrite !Forall_app. split; [apply no_fetch_forall; exact Hpe |].
  split; [| apply no_fetch_forall; exact Hf].
  eapply Forall_impl; [| exact Hsame].
  intros ev Hev Hf'. exists name. split; [exact Hname | exact (Hev Hf')].
Qed.

(** X7. When all five attempts of a valid request, one with a complete
    body whose model name has a text, fail, the handler answers 500 with
    the internal-error message that carries the message of the error of
    the fifth attempt, after exactly five upstream calls. *)
Theorem upstream_exhaustion_is_500 (req : Request) (c : Clock)
    (name : string) :
  API_KEY <> "" ->
  method req = "POST" ->
  complete (body_value (body req)) = true ->
  model_name (body_value (body req)) = Normal name ->
  (forall k, (k < 5)%nat -> attempt_fails (upstream (fetched c + k))) ->
  exists e,
    attempt_result (upstream (fetched c + 4)) = Abrupt e
    /\ result_of (handler req c)
       = Normal (mkHttp 500 (error_body (msg_internal e)))
    /\ fetch_count (trace_of (handler req c)) = 5%nat.
Proof.
  intros Hk Hm Hc Hname Hfail.
  rewrite (handler_post req c Hk Hm). unfold try_catch.
  rewrite (handle_post_sends req c name Hc Hname). unfold fetchWithRetry.
  destruct (retry_loop_all_fail (sent_url name)
              (sent_options (body_value (body req))) 5 4 0 c)
    as ((e & Hlast & Hres) & _ & Hcount).
  - reflexivity.
  - intros j Hj. apply Hfail. lia.
  - change (Z.to_nat 5) with 5%nat.
    destruct (retry_loop (sent_url name)
                (sent_options (body_value (body req))) 5 5 0 c)
      as [[o c1] t1].
    unfold result_of, trace_of in *. cbn [fst snd] in *. subst o.
    exists e. split; [exact Hlast |]. split; [reflexivity |].
    pose proof (parse_events_no_fetch (body req)) as Hpe.
    unfold fetch_count in *. cbn.
    rewrite !filter_app, !length_app, Hpe, Hcount. reflexivity.
Qed.

Lemma retry_loop_calls_once (url : string) (options : FetchOptions)
    (maxRetries : Z) (k : nat) (attempt : Z) (c : Clock) :
  (1 <= fetch_count
          (trace_of (retry_loop url options maxRetries (S k) attempt c)))%nat.
Proof.
  destruct (retry_loop_trace_head url options maxRetries (S k) attempt c)
    as [H | [rest H]].
  - exfalso. revert H. rewrite retry_loop_step.
    destruct (attempt_result (upstream (fetched c))); [discriminate |].
    destruct (attempt =? maxRetries - 1); [discriminate |].
    destruct (retry_loop url options maxRetries k (attempt + 1)
                (mkClock (S (fetched c)) (S (drawn c)))) as [[r c'] t'].
    discriminate.
  - rewrite H. unfold fetch_count. cbn. lia.
Qed.

(** As long as [remaining] counts the iterations up to [maxRetries], a
    timer runs between two consecutive calls and nowhere else, and each
    timer takes one draw. *)
Lemma retry_loop_timers (url : string) (options : FetchOptions)
    (maxRetries : Z) (remaining : nat) :
  forall (attempt : Z) (c : Clock),
    Z.of_nat remaining + attempt = maxRetries ->
    let run := retry_loop url options maxRetries remaining attempt c in
    sleep_count (trace_of run) = (fetch_count (trace_of run) - 1)%nat
    /\ drawn (clock_of run) = (drawn c + sleep_count (trace_of run))%nat.
Proof.
  induction remaining as [| k IH]; intros attempt c Hinv run; subst run.
  - cbn. lia.
  - rewrite retry_loop_step.
    destruct (attempt_result (upstream (fetched c))) as [r | e];
      [cbn; lia |].
    destruct (Z.eqb_spec attempt (maxRetries - 1)) as [Hlast | Hmore];
      [cbn; lia |].
    destruct k as [| k']; [lia |].
    pose proof (retry_loop_calls_once url options maxRetries k' (attempt + 1)
                  (mkClock (S (fetched c)) (S (drawn c)))) as Hone.
    specialize (IH (attempt + 1) (mkClock (S (fetched c)) (S (drawn c)))
                  ltac:(lia)).
    destruct (retry_loop url options maxRetries (S k') (attempt + 1)
                (mkClock (S (fetched c)) (S (drawn c)))) as [[r c'] t'].
    unfold trace_of, clock_of, sleep_count, fetch_count in *.
    cbn in *. lia.
Qed.

(** X8. In every run of [fetchWithRetry] there is exactly one timer
    between two consecutive calls of [fetch] and none before the first or
    after the last, and [Math.random] is drawn once per timer. *)
Theorem one_timer_between_calls (url : string) (options : FetchOptions)
    (maxRetries : Z) (c : Clock) :
  let run := fetchWithRetry url options maxRetries c in
  sleep_count (trace_of run) = (fetch_count (trace_of run) - 1)%nat
  /\ drawn (clock_of run) = (drawn c + sleep_count (trace_of run))%nat.
Proof.
  unfold fetchWithRetry.
  destruct (Z_le_gt_dec 0 maxRetries) as [Hpos | Hneg].
  - apply retry_loop_timers. lia.
  - replace (Z.to_nat maxRetries) with 0%nat by lia. cbn. lia.
Qed.

(** Consecutive backoff delays do not decrease: the largest delay of one
    exponent is at most the smallest of the next. *)
Lemma backoff_delay_monotone (a : Z) (r1 r2 : float) :
  0 <= a <= 45 ->
  (0 <=? r1)%float = true -> (r1 <? 1)%float = true ->
  (0 <=? r2)%float = true -> (r2 <? 1)%float = true ->
  (backoff_delay a r1 <=? backoff_delay (a + 1) r2)%float = true.
Proof.
  intros Ha H01 H11 H02 H12.
  change (backoff_delay a r1) with (base_delay a + r1 * 1000)%float.
  change (backoff_delay (a + 1) r2)
    with (base_delay (a + 1) + r2 * 1000)%float.
  destruct (delay_shape a r1 ltac:(lia) H01 H11) as (m1 & e1 & Hd1 & _ & Hhi).
  destruct (delay_shape (a + 1) r2 ltac:(lia) H02 H12)
    as (m2 & e2 & Hd2 & Hlo & _).
  pose proof (Prim2SF_valid (base_delay a + r1 * 1000)%float) as V1.
  pose proof (Prim2SF_valid (base_delay (a + 1) + r2 * 1000)%float) as V2.
  rewrite leb_spec, Hd1, Hd2 in *.
  apply SFleb_by_value; try assumption.
  assert (Hp : 0 < 2 ^ a) by (apply pow2_pos; lia).
  assert (HpK : 0 < 2 ^ (3 + K)) by (apply pow2_pos; unfold K; lia).
  rewrite (pow2_split a 1) in Hlo by lia. change (2 ^ 1) with 2 in Hlo.
  assert (Hstep : (2 ^ a + 1) * 125 * 2 ^ (3 + K)
                  <= 2 ^ a * 2 * 125 * 2 ^ (3 + K)).
  { apply Z.mul_le_mono_nonneg_r; lia. }
  lia.
Qed.

(** X10. With draws of [Math.random] in [0, 1), the timers of one run
    never get shorter: the timer before attempt [n + 1] is at least as long
    as the timer before attempt [n], for [n] from 1 to 46. *)
Theorem timers_do_not_decrease (url : string) (options : FetchOptions)
    (maxRetries : Z) (c : Clock) (n : nat) :
  (forall k, (0 <=? random k)%float = true /\ (random k <? 1)%float = true) ->
  (1 <= n <= 46)%nat ->
  (S n < fetch_count (trace_of (fetchWithRetry url options maxRetries c)))%nat ->
  let t := trace_of (fetchWithRetry url options maxRetries c) in
  exists d1 d2,
    delay_before n None t = Some d1
    /\ delay_before (S n) None t = Some d2
    /\ (d1 <=? d2)%float = true.
Proof.
  intros Hdraw Hn Hmade t. subst t. unfold fetchWithRetry in *.
  destruct n as [| m]; [lia |].
  rewrite (retry_loop_delay url options maxRetries (Z.to_nat maxRetries)
             0 c m ltac:(lia)).
  rewrite (retry_loop_delay url options maxRetries (Z.to_nat maxRetries)
             0 c (S m) Hmade).
  do 2 eexists. split; [reflexivity |]. split; [reflexivity |].
  destruct (Hdraw (drawn c + m)%nat) as [H01 H11].
  destruct (Hdraw (drawn c + S m)%nat) as [H02 H12].
  replace (0 + Z.of_nat (S m)) with (0 + Z.of_nat m + 1) by lia.
  apply backoff_delay_monotone; auto. lia.
Qed.

(** What lines 79-135 do depends on the request only through the decoded
    body. *)
Lemma handle_post_by_value (req1 req2 : Request) (c : Clock) :
  body_value (body req1) = body_value (body req2) ->
  exists r c' t,
    handle_post req1 c = (r, c', parse_events (body req1) ++ t)
    /\ handle_post req2 c = (r, c', parse_events (body req2) ++ t).
Proof.
  intros Hv.
  destruct (nullish (body_value (body req1))) eqn:Hn.
  { rewrite (handle_post_nullish req1 c Hn).
    rewrite Hv in Hn. rewrite (handle_post_nullish req2 c Hn), Hv.
    do 3 eexists. rewrite !app_nil_r. split; reflexivity. }
  destruct (complete (body_value (body req1))) eqn:Hc.
  2:{ rewrite (handle_post_incomplete req1 c Hn Hc).
      rewrite Hv in Hn, Hc. rewrite (handle_post_incomplete req2 c Hn Hc).
      do 3 eexists. rewrite !app_nil_r. split; reflexivity. }
  destruct (model_name (body_value (body req1))) as [name | e] eqn:Hname.
  2:{ rewrite (handle_post_unnamed req1 c e Hc Hname).
      rewrite Hv in Hc, Hname. rewrite (handle_post_unnamed req2 c e Hc Hname).
      do 3 eexists. rewrite !app_nil_r. split; reflexivity. }
  rewrite (handle_post_sends req1 c name Hc Hname).
  rewrite Hv in Hc, Hname. rewrite (handle_post_sends req2 c name Hc Hname), Hv.
  destruct (fetchWithRetry (sent_url name)
              (sent_options (body_value (body req2))) 5 c)
    as [[[response | e] c1] t1].
  - destruct (deliver response c1) as [[r c2] t2].
    do 3 eexists. split; reflexivity.
  - do 3 eexists. split; reflexivity.
Qed.

(** X11. A body that arrives as the JSON text of a value that is not a
    string is handled exactly like that value arriving already parsed: the
    same answer after the same upstream calls, the one difference being the
    manual [JSON.parse] at the start. *)
Theorem text_body_is_handled_as_its_value (req : Request) (s : string)
    (v : JsVal) (c : Clock) :
  API_KEY <> "" ->
  method req = "POST" ->
  body req = JStr s ->
  s <> "" ->
  JSON_parse s = Some v ->
  (forall s', v <> JStr s') ->
  let run := handler req c in
  let run' := handler (mkRequest "POST" v) c in
  result_of run = result_of run'
  /\ clock_of run = clock_of run'
  /\ trace_of run = EvJsonParse s :: trace_of run'.
Proof.
  intros Hk Hm Hb Hs Hp Hv run run'. subst run run'.
  assert (Hpe : parse_events (body req) = [EvJsonParse s]).
  { rewrite Hb. unfold parse_events.
    rewrite (nonempty_length s Hs), Hp. reflexivity. }
  assert (Hpe' : parse_events v = []).
  { destruct v; try reflexivity. exfalso. apply (Hv s0). reflexivity. }
  assert (Hbv : body_value (body req) = body_value v).
  { rewrite Hb. unfold body_value at 1.
    rewrite (nonempty_length s Hs), Hp.
    destruct v; try reflexivity. exfalso. apply (Hv s0). reflexivity. }
  destruct (handle_post_by_value req (mkRequest "POST" v) c Hbv)
    as (r & c' & t & H1 & H2).
  cbn [body] in H2. rewrite Hpe in H1. rewrite Hpe' in H2.
  rewrite (handler_post req c Hk Hm).
  rewrite (handler_post (mkRequest "POST" v) c Hk eq_refl).
  unfold try_catch. rewrite H1, H2.
  destruct r as [answer | e]; cbn; auto.
Qed.

(** The optional chain yields nothing usable: the answer is 500 with the
    message chosen by the first safety rating, and the reply attached. *)
Lemma deliver_unusable (r : Response) (s : string) (result d : JsVal)
    (c : Clock) :
  text r = Normal s ->
  JSON_parse s = Some result ->
  nullish result = false ->
  extract_base64 result c = (Normal d, c, []) ->
  truthy d = false ->
  deliver (Some r) c =
    (Normal
       (mkHttp 500
          (JObj
             [("error",
               JStr (if strict_eq_str (first_rating_probability result) "HIGH"
                     then msg_blocked else msg_failed));
              ("details", result)])),
     c, [blocked_log result]).
Proof.
  intros Ht Hp Hn He Hd. unfold deliver.
  rewrite (bind_normal _ _ _ _ _ _ (response_json_run r s result c Ht Hp)).
  rewrite (bind_normal _ _ _ _ _ _ He). rewrite Hd.
  unfold console_error, emit, bind at 1.
  rewrite (bind_normal _ _ _ _ _ _ (high_probability_run result c Hn)).
  reflexivity.
Qed.

(** X12. Only the first part that carries [inlineData] is looked at: for
    a complete request whose model name has a text, when the [data] of
    that part is missing or empty the handler answers 500 with the
    content-policy or the generic message and the reply as [details],
    whatever the parts after it hold. *)
Theorem first_inline_part_decides (req : Request) (k : nat) (r : Response)
    (s : string) (result : JsVal) (before after : list JsVal) (part : JsVal)
    (c : Clock) (name : string) :
  API_KEY <> "" ->
  method req = "POST" ->
  complete (body_value (body req)) = true ->
  model_name (body_value (body req)) = Normal name ->
  Z.of_nat k < 5 ->
  (forall j, (j < k)%nat -> attempt_fails (upstream (fetched c + j))) ->
  upstream (fetched c + k) = Resolves r ->
  ok r = true ->
  text r = Normal s ->
  JSON_parse s = Some result ->
  first_candidate_parts result = JArr (before ++ part :: after) ->
  no_inline_part before ->
  carries_inlineData part = true ->
  truthy (inline_data_of part) = false ->
  result_of (handler req c)
    = Normal
        (mkHttp 500
           (JObj
              [("error",
                JStr (if strict_eq_str (first_rating_probability result) "HIGH"
                      then msg_blocked else msg_failed));
               ("details", result)])).
Proof.
  intros Hkey Hpost Hcomplete Hname Hk Hfail Hup Hok Ht Hp Hparts Hb Hc Hd.
  assert (Hn : nullish result = false).
  { destruct result; try reflexivity; discriminate. }
  rewrite (handler_post req c Hkey Hpost). unfold try_catch.
  rewrite (handle_post_sends req c name Hcomplete Hname).
  unfold fetchWithRetry.
  destruct (retry_loop_first_ok (sent_url name)
              (sent_options (body_value (body req))) 5 k r (Z.to_nat 5) 0 c)
    as (Hres & _ & _); auto; try lia.
  destruct (retry_loop (sent_url name)
              (sent_options (body_value (body req))) 5 (Z.to_nat 5) 0 c)
    as [[o c1] t1].
  unfold result_of in Hres. cbn in Hres. subst o.
  assert (He : extract_base64 result c1 = (Normal (inline_data_of part), c1, [])).
  { rewrite extract_base64_parts, Hparts. cbn [opt_find_inlineData].
    rewrite (bind_normal _ _ _ _ _ _
               (find_inlineData_first before after part c1 Hb Hc)).
    fold (bind (opt_get part "inlineData") (fun i => opt_get i "data") c1).
    rewrite inline_data_run. reflexivity. }
  rewrite (deliver_unusable r s result (inline_data_of part) c1 Ht Hp Hn He Hd).
  reflexivity.
Qed.

(** X14. A model name that has no text stops a complete request at line
    86: the conversion raises while the URL is built, the outer [catch]
    answers 500 with the message of that error, and nothing is sent
    upstream and no draw is made. *)
Theorem model_without_text_is_500 (req : Request) (c : Clock)
    (e : JsError) :
  API_KEY <> "" ->
  method req = "POST" ->
  complete (body_value (body req)) = true ->
  model_name (body_value (body req)) = Abrupt e ->
  let run := handler req c in
  result_of run = Normal (mkHttp 500 (error_body (msg_internal e)))
  /\ clock_of run = c
  /\ trace_of run = parse_events (body req) ++ [internal_log e]
  /\ fetch_count (trace_of run) = 0%nat.
Proof.
  intros Hk Hm Hc Hname run. subst run.
  assert (Hrun : handler req c
                 = (Normal (mkHttp 500 (error_body (msg_internal e))), c,
                    parse_events (body req) ++ [internal_log e])).
  { rewrite (handler_post req c Hk Hm). unfold try_catch.
    rewrite (handle_post_unnamed req c e Hc Hname). reflexivity. }
  rewrite Hrun. unfold result_of, clock_of, trace_of. cbn [fst snd].
  split; [reflexivity |]. split; [reflexivity |]. split; [reflexivity |].
  rewrite fetch_count_app, parse_events_no_fetch. reflexivity.
Qed.

End Generate.

(** ** The claims on concrete runs *)

(** C1. On a first attempt answered 400, with the default five attempts,
    the loop does not stop: it calls [fetch] five times, the error thrown
    in the [try] block being caught by the [catch] of the same iteration,
    and only then throws the error that carries the status and the body. *)
Theorem status_400_is_retried :
  let run := fetchWithRetry (always reply_400) draw_half "url"
               (mkOptions "POST" [] "{}") 5 clock0 in
  fatal (always reply_400 0%nat)
  /\ fetch_count (trace_of run) = 5%nat
  /\ result_of run
     = Abrupt (Error "API Request failed with status 400: bad request").
Proof.
  cbv zeta. split; [cbn; repeat split; lia |].
  split; vm_compute; reflexivity.
Qed.

(** C2 (as stated). With the default five attempts against an upstream
    that always answers 500, and every draw of [Math.random] equal to
    [1 - 2^-52], which is below 1, the timer before attempt 4 is exactly
    9000 milliseconds: [8000 + 999.9999999999998] rounds up to the upper
    end [2^3 * 1000 + 1000] of the interval, which the claim excludes. *)
Lemma delay_reaches_upper_end :
  let run := fetchWithRetry (always reply_500) draw_top "url"
               (mkOptions "POST" [] "{}") 5 clock0 in
  (forall k, (0 <=? draw_top k)%float = true /\ (draw_top k <? 1)%float = true)
  /\ (4 < fetch_count (trace_of run))%nat
  /\ delay_before 4 None (trace_of run) = Some 9000%float
  /\ (base_delay 3 + 1000)%float = 9000%float
  /\ (9000 <? base_delay 3 + 1000)%float = false.
Proof.
  cbv zeta. split; [intros k; split; reflexivity |].
  split; [vm_compute; lia |].
  split; [vm_compute; reflexivity |].
  split; vm_compute; reflexivity.
Qed.

(** C4. A POST whose body is [null] (or the text of [null]) has none of
    the required fields, yet the answer is 500: the destructuring of line
    79 raises and the outer [catch] answers. *)
Theorem null_body_is_500 :
  let answer :=
    mkHttp 500
      (error_body
         (msg_internal
            (TypeError (sample_engine_message (DestructureNullish JNull))))) in
  result_of
    (handler sample_engine_message sample_JSON_parse sample_JSON_stringify
       sample_ToString (always reply_image) draw_half sample_key
       (mkRequest "POST" JNull) clock0)
    = Normal answer
  /\ result_of
       (handler sample_engine_message sample_JSON_parse sample_JSON_stringify
          sample_ToString (always reply_image) draw_half sample_key
          (mkRequest "POST" (JStr "null")) clock0)
     = Normal answer.
Proof. cbv zeta. split; vm_compute; reflexivity. Qed.

(** C6. A 200 reply whose body is [null] has no inline-data part, yet the
    answer carries neither of the two messages nor [details]: line 127
    reads [result.candidates] without the guard line 119 has, the read
    raises and the outer [catch] answers. *)
Theorem null_reply_has_no_details :
  result_of
    (handler sample_engine_message sample_JSON_parse sample_JSON_stringify
       sample_ToString (always reply_null) draw_half sample_key
       sample_request clock0)
    = Normal
        (mkHttp 500
           (error_body
              (msg_internal
                 (TypeError
                    (sample_engine_message
                       (ReadOfNullish JNull "candidates")))))).
Proof. vm_compute. reflexivity. Qed.

(** ** The claims' hypotheses hold on the samples *)

Lemma fetchWithRetry_exhausted_witness :
  let run := fetchWithRetry (always reply_500) draw_half "url"
               (mkOptions "POST" [] "{}") 5 clock0 in
  result_of run = Abrupt (Error "Retriable HTTP error! status: 500")
  /\ fetch_count (trace_of run) = 5%nat
  /\ fetched (clock_of run) = 5%nat.
Proof.
  apply (fetchWithRetry_exhausted (always reply_500) draw_half "url"
           (mkOptions "POST" [] "{}") 5 clock0).
  - lia.
  - intros k _. right. simpl. lia.
Defined.

Lemma backoff_delay_closed_interval_witness :
  let run := fetchWithRetry (always reply_500) draw_top "url"
               (mkOptions "POST" [] "{}") 5 clock0 in
  let d := backoff_delay 3 (draw_top 3) in
  delay_before 4 None (trace_of run) = Some d
  /\ (base_delay 3 <=? d)%float = true
  /\ (d <=? base_delay 3 + 1000)%float = true
  /\ is_integer_double (base_delay 3) 8000
  /\ is_integer_double (base_delay 3 + 1000)%float 9000
  /\ delay_before 0 None (trace_of run) = None.
Proof.
  apply (backoff_delay_closed_interval (always reply_500) draw_top "url"
           (mkOptions "POST" [] "{}") 5 clock0 4).
  - intros k. split; reflexivity.
  - lia.
  - vm_compute. lia.
Defined.


Lemma undecodable_body_is_400_witness :
  let run :=
    handler sample_engine_message sample_JSON_parse sample_JSON_stringify
      sample_ToString (always reply_image) draw_half sample_key
      (mkRequest "POST" (JStr "[object Object]")) clock0 in
  body_value sample_JSON_parse (JStr "[object Object]") = JObj []
  /\ result_of run = Normal (mkHttp 400 (error_body msg_missing))
  /\ fetch_count (trace_of run) = 0%nat.
Proof.
  apply (undecodable_body_is_400 sample_engine_message sample_JSON_parse
           sample_JSON_stringify sample_ToString (always reply_image)
           draw_half sample_key (mkRequest "POST" (JStr "[object Object]"))
           "[object Object]" clock0).
  - discriminate.
  - reflexivity.
  - reflexivity.
  - discriminate.
  - vm_compute. reflexivity.
Defined.

Lemma missing_key_is_500_witness :
  handler sample_engine_message sample_JSON_parse sample_JSON_stringify
    sample_ToString (always reply_image) draw_half None
    (mkRequest "GET" JUndefined) clock0
  = (Normal (mkHttp 500 (error_body msg_no_key)), clock0, []).
Proof.
  apply (missing_key_is_500 sample_engine_message sample_JSON_parse
           sample_JSON_stringify sample_ToString (always reply_image)
           draw_half None (mkRequest "GET" JUndefined) clock0).
  reflexivity.
Defined.

Lemma non_post_is_405_witness :
  handler sample_engine_message sample_JSON_parse sample_JSON_stringify
    sample_ToString (always reply_image) draw_half sample_key
    (mkRequest "GET" sample_body) clock0
  = (Normal (mkHttp 405 (error_body msg_post_only)), clock0, []).
Proof.
  apply (non_post_is_405 sample_engine_message sample_JSON_parse
           sample_JSON_stringify sample_ToString (always reply_image)
           draw_half sample_key (mkRequest "GET" sample_body) clock0).
  - discriminate.
  - discriminate.
Defined.

Lemma empty_string_body_is_400_witness :
  let req := mkRequest "POST" (JStr "") in
  let H :=
    handler sample_engine_message sample_JSON_parse sample_JSON_stringify
      sample_ToString (always reply_image) draw_half sample_key in
  parse_body sample_engine_message sample_JSON_parse (JStr "") clock0
    = (Normal (JStr ""), clock0, [])
  /\ destructure sample_engine_message (JStr "") clock0
     = (Normal (JUndefined, JUndefined, JUndefined), clock0, [])
  /\ H req clock0 = (Normal (mkHttp 400 (error_body msg_missing)), clock0, [])
  /\ H req clock0 = H (mkRequest "POST" (JObj [])) clock0.
Proof.
  apply (empty_string_body_is_400 sample_engine_message sample_JSON_parse
           sample_JSON_stringify sample_ToString (always reply_image)
           draw_half sample_key (mkRequest "POST" (JStr "")) clock0).
  - discriminate.
  - reflexivity.
  - reflexivity.
Defined.

Lemma incomplete_body_is_400_witness :
  let run :=
    handler sample_engine_message sample_JSON_parse sample_JSON_stringify
      sample_ToString (always reply_image) draw_half sample_key
      (mkRequest "POST" (JObj [("promptText", JStr "a cat waving")]))
      clock0 in
  result_of run = Normal (mkHttp 400 (error_body msg_missing))
  /\ fetch_count (trace_of run) = 0%nat.
Proof.
  apply (incomplete_body_is_400 sample_engine_message sample_JSON_parse
           sample_JSON_stringify sample_ToString (always reply_image)
           draw_half sample_key
           (mkRequest "POST" (JObj [("promptText", JStr "a cat waving")]))
           clock0).
  - discriminate.
  - reflexivity.
  - reflexivity.
  - reflexivity.
Defined.

Lemma reply_without_inline_data_is_500_witness :
  result_of
    (handler sample_engine_message sample_JSON_parse sample_JSON_stringify
       sample_ToString (flaky reply_blocked) draw_half sample_key
       sample_request clock0)
  = Normal
      (mkHttp 500
         (JObj [("error", JStr msg_blocked); ("details", sample_blocked)])).
Proof.
  apply (reply_without_inline_data_is_500 sample_engine_message
           sample_JSON_parse sample_JSON_stringify sample_ToString
           (flaky reply_blocked) draw_half sample_key sample_request 2
           reply_blocked sample_blocked_text sample_blocked clock0
           "gemini-2.5-flash-image-preview").
  - discriminate.
  - reflexivity.
  - reflexivity.
  - reflexivity.
  - lia.
  - intros j Hj. exists (Error "Retriable HTTP error! status: 503").
    destruct j as [| [| j]]; [reflexivity | reflexivity | lia].
  - reflexivity.
  - reflexivity.
  - reflexivity.
  - vm_compute. reflexivity.
  - reflexivity.
  - left. reflexivity.
Defined.

(** ** Jitter and the answer *)

Lemma retry_loop_jitter (upstream : nat -> FetchOutcome)
    (random1 random2 : nat -> float) (url : string) (options : FetchOptions)
    (maxRetries : Z) (remaining : nat) :
  forall (attempt : Z) (c : Clock),
    let run1 := retry_loop upstream random1 url options maxRetries remaining
                  attempt c in
    let run2 := retry_loop upstream random2 url options maxRetries remaining
                  attempt c in
    result_of run1 = result_of run2
    /\ clock_of run1 = clock_of run2
    /\ fetch_count (trace_of run1) = fetch_count (trace_of run2).
Proof.
  induction remaining as [| k IH]; intros attempt c run1 run2;
    subst run1 run2.
  - cbn. auto.
  - rewrite !retry_loop_step.
    destruct (attempt_result (upstream (fetched c))) as [r | e];
      [cbn; auto |].
    destruct (attempt =? maxRetries - 1); [cbn; auto |].
    specialize (IH (attempt + 1) (mkClock (S (fetched c)) (S (drawn c)))).
    destruct (retry_loop upstream random1 url options maxRetries k
                (attempt + 1) (mkClock (S (fetched c)) (S (drawn c))))
      as [[r1 c1] t1].
    destruct (retry_loop upstream random2 url options maxRetries k
                (attempt + 1) (mkClock (S (fetched c)) (S (drawn c))))
      as [[r2 c2] t2].
    unfold result_of, clock_of, trace_of, fetch_count in *. cbn in *.
    destruct IH as (-> & -> & ->). auto.
Qed.

(** X13. The draws of [Math.random] only set how long the handler waits:
    the answer, the number of upstream calls and the number of draws are
    the same whatever values are drawn. *)
Theorem answer_independent_of_jitter
    (engine_message : HostFault -> string)
    (JSON_parse : string -> option JsVal)
    (JSON_stringify : JsVal -> option Z -> string)
    (ToString : JsVal -> Completion string) (upstream : nat -> FetchOutcome)
    (random1 random2 : nat -> float) (GEMINI_API_KEY : option string)
    (req : Request) (c : Clock) :
  let run1 := handler engine_message JSON_parse JSON_stringify ToString
                upstream random1 GEMINI_API_KEY req c in
  let run2 := handler engine_message JSON_parse JSON_stringify ToString
                upstream random2 GEMINI_API_KEY req c in
  result_of run1 = result_of run2
  /\ clock_of run1 = clock_of run2
  /\ fetch_count (trace_of run1) = fetch_count (trace_of run2).
Proof.
  cbv zeta. unfold handler.
  destruct (negb (truthy (JStr (API_KEY GEMINI_API_KEY)))); [cbn; auto |].
  destruct (negb (String.eqb (method req) "POST")); [cbn; auto |].
  unfold try_catch.
  destruct (nullish (body_value JSON_parse (body req))) eqn:Hn.
  { rewrite !handle_post_nullish by exact Hn. cbn. auto. }
  destruct (complete (body_value JSON_parse (body req))) eqn:Hc.
  2:{ rewrite !handle_post_incomplete by assumption. cbn. auto. }
  destruct (model_name ToString (body_value JSON_parse (body req)))
    as [name | e] eqn:Hname.
  2:{ rewrite (handle_post_unnamed engine_message JSON_parse JSON_stringify
                 ToString upstream random1 GEMINI_API_KEY req c e Hc Hname).
      rewrite (handle_post_unnamed engine_message JSON_parse JSON_stringify
                 ToString upstream random2 GEMINI_API_KEY req c e Hc Hname).
      cbn. auto. }
  rewrite (handle_post_sends engine_message JSON_parse JSON_stringify
             ToString upstream random1 GEMINI_API_KEY req c name Hc Hname).
  rewrite (handle_post_sends engine_message JSON_parse JSON_stringify
             ToString upstream random2 GEMINI_API_KEY req c name Hc Hname).
  unfold fetchWithRetry.
  pose proof (retry_loop_jitter upstream random1 random2
                (sent_url GEMINI_API_KEY name)
                (sent_options JSON_stringify
                   (body_value JSON_parse (body req)))
                5 (Z.to_nat 5) 0 c) as Hj.
  cbv zeta in Hj.
  destruct (retry_loop upstream random1 _ _ 5 (Z.to_nat 5) 0 c)
    as [[o1 c1] t1].
  destruct (retry_loop upstream random2 _ _ 5 (Z.to_nat 5) 0 c)
    as [[o2 c2] t2].
  unfold result_of, clock_of, trace_of in Hj. cbn [fst snd] in Hj.
  destruct Hj as (<- & <- & Hcount). unfold fetch_count in *.
  destruct o1 as [response | e].
  - destruct (deliver engine_message JSON_parse JSON_stringify response c1)
      as [[[answer | e] c'] t'];
      unfold result_of, clock_of, trace_of; cbn;
      repeat split; rewrite ?filter_app, ?length_app, ?Hcount; reflexivity.
  - unfold result_of, clock_of, trace_of; cbn.
    repeat split; rewrite ?filter_app, ?length_app, ?Hcount; reflexivity.
Qed.

(** ** The hypotheses of the further properties hold on the samples *)

Lemma upstream_exhaustion_is_500_witness :
  exists e,
    attempt_result (always reply_500 4%nat) = Abrupt e
    /\ result_of
         (handler sample_engine_message sample_JSON_parse
            sample_JSON_stringify sample_ToString (always reply_500)
            draw_half sample_key sample_request clock0)
       = Normal (mkHttp 500 (error_body (msg_internal e)))
    /\ fetch_count
         (trace_of
            (handler sample_engine_message sample_JSON_parse
               sample_JSON_stringify sample_ToString (always reply_500)
               draw_half sample_key sample_request clock0))
       = 5%nat.
Proof.
  apply (upstream_exhaustion_is_500 sample_engine_message sample_JSON_parse
           sample_JSON_stringify sample_ToString (always reply_500)
           draw_half sample_key sample_request clock0
           "gemini-2.5-flash-image-preview").
  - discriminate.
  - reflexivity.
  - reflexivity.
  - reflexivity.
  - intros k _. exists (Error "Retriable HTTP error! status: 500").
    reflexivity.
Defined.

Lemma timers_do_not_decrease_witness :
  let t := trace_of (fetchWithRetry (always reply_500) draw_top "url"
                       (mkOptions "POST" [] "{}") 5 clock0) in
  exists d1 d2,
    delay_before 2 None t = Some d1
    /\ delay_before 3 None t = Some d2
    /\ (d1 <=? d2)%float = true.
Proof.
  apply (timers_do_not_decrease (always reply_500) draw_top "url"
           (mkOptions "POST" [] "{}") 5 clock0 2).
  - intros k. split; reflexivity.
  - lia.
  - vm_compute. lia.
Defined.

Lemma text_body_is_handled_as_its_value_witness :
  let H :=
    handler sample_engine_message sample_JSON_parse sample_JSON_stringify
      sample_ToString (always reply_image) draw_half sample_key in
  let run := H (mkRequest "POST" (JStr "{}")) clock0 in
  let run' := H (mkRequest "POST" (JObj [])) clock0 in
  result_of run = result_of run'
  /\ clock_of run = clock_of run'
  /\ trace_of run = EvJsonParse "{}" :: trace_of run'.
Proof.
  apply (text_body_is_handled_as_its_value sample_engine_message
           sample_JSON_parse sample_JSON_stringify sample_ToString
           (always reply_image) draw_half sample_key
           (mkRequest "POST" (JStr "{}")) "{}" (JObj []) clock0).
  - discriminate.
  - reflexivity.
  - reflexivity.
  - discriminate.
  - reflexivity.
  - intros s'. discriminate.
Defined.

Lemma first_inline_part_decides_witness :
  result_of
    (handler sample_engine_message sample_JSON_parse_more
       sample_JSON_stringify sample_ToString (always reply_empty_first)
       draw_half sample_key sample_request clock0)
  = Normal
      (mkHttp 500
         (JObj [("error", JStr msg_failed);
                ("details", sample_empty_first)])).
Proof.
  apply (first_inline_part_decides sample_engine_message
           sample_JSON_parse_more sample_JSON_stringify sample_ToString
           (always reply_empty_first) draw_half sample_key sample_request 0
           reply_empty_first sample_empty_first_text sample_empty_first
           [] [sample_image_part] sample_empty_part clock0
           "gemini-2.5-flash-image-preview").
  - discriminate.
  - reflexivity.
  - reflexivity.
  - reflexivity.
  - lia.
  - intros j Hj. lia.
  - reflexivity.
  - reflexivity.
  - reflexivity.
  - vm_compute. reflexivity.
  - reflexivity.
  - constructor.
  - reflexivity.
  - reflexivity.
Defined.

Lemma model_without_text_is_500_witness :
  let run :=
    handler sample_engine_message sample_JSON_parse sample_JSON_stringify
      sample_ToString (always reply_image) draw_half sample_key
      (mkRequest "POST" sample_body_unnamed) clock0 in
  result_of run
    = Normal (mkHttp 500 (error_body (msg_internal no_primitive)))
  /\ clock_of run = clock0
  /\ trace_of run = [internal_log no_primitive]
  /\ fetch_count (trace_of run) = 0%nat.
Proof.
  apply (model_without_text_is_500 sample_engine_message sample_JSON_parse
           sample_JSON_stringify sample_ToString (always reply_image)
           draw_half sample_key (mkRequest "POST" sample_body_unnamed)
           clock0 no_primitive).
  - discriminate.
  - reflexivity.
  - reflexivity.
  - reflexivity.
Defined.
